(** * go-fault: the injectors of [injector.go]

    A shallow embedding of the HTTP fault injectors (chain, random, reject,
    error, slow) and of the handlers they build, with the properties of
    their specification.

    Go values are modelled as follows.
    - A pointer to an injector struct is an address into a typed heap of
      the world ([None] is the nil pointer); structs are mutated in place
      through their address, as the pointer receivers of the source do.
    - An [http.Handler] is a closure value: the [http.HandlerFunc] literal
      of one of the five [Handler] methods together with what it captured,
      or an application handler outside this file.
    - Every call that leaves the file ([Reporter.Report], the [sleep]
      function, [http.Error], the index generator, an application
      handler) appends an event to the trace of the world.
    - [panic] is an outcome that unwinds through the callers. *)

From Stdlib Require Import ZArith Lia.
From stdpp Require Import base list strings.

(** ** Data model *)

(** [type InjectorState int], [StateStarted = iota + 1] and following. *)
Inductive InjectorState := StateStarted | StateFinished | StateSkipped.

#[global] Instance InjectorState_eq_dec : EqDecision InjectorState.
Proof. solve_decision. Defined.

Definition InjectorState_int (s : InjectorState) : Z :=
  match s with
  | StateStarted => 1
  | StateFinished => 2
  | StateSkipped => 3
  end.

(** [ErrInvalidHTTPCode], the only error value of the file. *)
Inductive error := ErrInvalidHTTPCode.

Definition ErrInvalidHTTPCode_text : string := "not a valid http status code".

(** A heap address, and a Go pointer: [None] is [nil]. *)
Abbreviation addr := nat (only parsing).
Definition ptr := option addr.

(** A non-nil [Reporter] interface value, identified by a number: the
    reporter is an object outside this file. A [reporter] field holds an
    [option Reporter], [None] being the nil interface. *)
Definition Reporter := nat.

(** A [func(t time.Duration)] value, identified by a number; [time_Sleep]
    is the one [NewSlowInjector] installs. Durations are [int64]
    nanoseconds. *)
Definition SleepFunc := nat.
Definition time_Sleep : SleepFunc := 0.
Definition Duration := Z.
Bind Scope Z_scope with Duration.

(** The context values the handlers of this file tag a request with. *)
Inductive ContextString :=
  | ContextValueChainInjector
  | ContextValueRandomInjector
  | ContextValueSlowInjector
  | ContextValueSkipped.

(** A request: an identity and the fault tags of its context, oldest
    first. *)
Record Request := mkRequest { req_id : nat; req_ctx : list ContextString }.

(** Modelled from the spec: [updateRequestContextValue] is not in
    [injector.go]. It "annotates the request's context with a tag
    identifying which injector path was taken" and returns the tagged
    request; the request given is left as it was. *)
Definition updateRequestContextValue (r : Request) (v : ContextString) : Request :=
  {| req_id := req_id r; req_ctx := req_ctx r ++ [v] |}.

(** An [Injector] interface value holding a pointer to one of the five
    injector types of the file. An element of a [middlewares] slice is the
    method value [i.Handler] of such an interface value, and is represented
    by the interface value itself: calling the element is calling the
    [Handler] method of that receiver. *)
Inductive Injector :=
  | IChain (i : ptr)
  | IRandom (i : ptr)
  | IReject (i : ptr)
  | IError (i : ptr)
  | ISlow (i : ptr).

(** An [http.Handler] value. The five [..Func] constructors are the closures
    [http.HandlerFunc(func(w, r) {...})] returned by the five [Handler]
    methods, with the receiver [i] and the variable [next] they capture.
    The closure of [ChainInjector.Handler] assigns to [next], so it holds
    the address of that variable; the other four only read it and hold its
    value. [AppHandler id] is a handler of the application, which returns
    when called. A handler value is never the nil interface. *)
Inductive Handler :=
  | AppHandler (id : nat)
  | ChainFunc (i : ptr) (next : addr)
  | RandomFunc (i : ptr) (next : Handler)
  | RejectFunc (i : ptr) (next : Handler)
  | ErrorFunc (i : ptr) (next : Handler)
  | SlowFunc (i : ptr) (next : Handler).

(** Calls that leave the file, in the order they happen. *)
Inductive Event :=
  | EvReport (rep : Reporter) (name : string) (s : InjectorState)
      (* rep.Report(name, s) *)
  | EvSleep (f : SleepFunc) (d : Duration)
      (* i.sleep(d) *)
  | EvError (msg : string) (code : Z)
      (* http.Error(w, msg, code) *)
  | EvIntn (i : addr) (n k : Z)
      (* i.randF(n) of the random injector at address i returned k *)
  | EvServe (id : nat) (r : Request).
      (* the application handler id was called with request r *)

(** Values a handler of this file can panic with. *)
Inductive PanicValue :=
  | ErrAbortHandler     (* http.ErrAbortHandler *)
  | NilDereference      (* runtime error: nil pointer dereference *)
  | IndexOutOfRange.    (* runtime error: index out of range *)

(** How a call ends. [BadPointer] is a read through an address that is not
    allocated, which no Go program does; [OutOfFuel] is the bound of the
    interpreter. *)
Inductive Outcome :=
  | Returned
  | Panicked (v : PanicValue)
  | OutOfFuel
  | BadPointer.

Record ChainInjector := mkChainInjector {
  chain_middlewares : list Injector;
  chain_reporter : option Reporter
}.

Record RejectInjector := mkRejectInjector {
  reject_reporter : option Reporter
}.

Record ErrorInjector := mkErrorInjector {
  statusCode : Z;
  statusText : string;
  error_reporter : option Reporter
}.

Record SlowInjector := mkSlowInjector {
  duration : Duration;
  slow_reporter : option Reporter;
  sleep : option SleepFunc
}.

(** [Name] of the five injectors. *)
Definition ChainInjector_Name : string := "Chain Injector".
Definition RandomInjector_Name : string := "Random Injector".
Definition RejectInjector_Name : string := "Reject Injector".
Definition ErrorInjector_Name : string := "Error Injector".
Definition SlowInjector_Name : string := "Slow Injector".

(** Go's slice indexing [s[k]] with an [int] index: out of range panics. *)
Definition index {A} (s : list A) (k : Z) : option A :=
  if (k <? 0)%Z then None else s !! Z.to_nat k.

(** The number of reports of state [s] in a trace. *)
Definition is_report (s : InjectorState) (e : Event) : bool :=
  match e with
  | EvReport _ _ s' => bool_decide (s = s')
  | _ => false
  end.

Definition report_count (s : InjectorState) (tr : list Event) : nat :=
  length (List.filter (is_report s) tr).

(** ** Instances used in the examples *)

(** The table of [http.StatusText] in Go's [net/http]. The properties hold
    for every table; this one is used at concrete inputs. *)
Definition go_StatusText (code : Z) : string :=
  match code with
  | 100 => "Continue"
  | 101 => "Switching Protocols"
  | 102 => "Processing"
  | 103 => "Early Hints"
  | 200 => "OK"
  | 201 => "Created"
  | 202 => "Accepted"
  | 203 => "Non-Authoritative Information"
  | 204 => "No Content"
  | 205 => "Reset Content"
  | 206 => "Partial Content"
  | 207 => "Multi-Status"
  | 208 => "Already Reported"
  | 226 => "IM Used"
  | 300 => "Multiple Choices"
  | 301 => "Moved Permanently"
  | 302 => "Found"
  | 303 => "See Other"
  | 304 => "Not Modified"
  | 305 => "Use Proxy"
  | 307 => "Temporary Redirect"
  | 308 => "Permanent Redirect"
  | 400 => "Bad Request"
  | 401 => "Unauthorized"
  | 402 => "Payment Required"
  | 403 => "Forbidden"
  | 404 => "Not Found"
  | 405 => "Method Not Allowed"
  | 406 => "Not Acceptable"
  | 407 => "Proxy Authentication Required"
  | 408 => "Request Timeout"
  | 409 => "Conflict"
  | 410 => "Gone"
  | 411 => "Length Required"
  | 412 => "Precondition Failed"
  | 413 => "Request Entity Too Large"
  | 414 => "Request URI Too Long"
  | 415 => "Unsupported Media Type"
  | 416 => "Requested Range Not Satisfiable"
  | 417 => "Expectation Failed"
  | 418 => "I'm a teapot"
  | 421 => "Misdirected Request"
  | 422 => "Unprocessable Entity"
  | 423 => "Locked"
  | 424 => "Failed Dependency"
  | 425 => "Too Early"
  | 426 => "Upgrade Required"
  | 428 => "Precondition Required"
  | 429 => "Too Many Requests"
  | 431 => "Request Header Fields Too Large"
  | 451 => "Unavailable For Legal Reasons"
  | 500 => "Internal Server Error"
  | 501 => "Not Implemented"
  | 502 => "Bad Gateway"
  | 503 => "Service Unavailable"
  | 504 => "Gateway Timeout"
  | 505 => "HTTP Version Not Supported"
  | 506 => "Variant Also Negotiates"
  | 507 => "Insufficient Storage"
  | 508 => "Loop Detected"
  | 510 => "Not Extended"
  | 511 => "Network Authentication Required"
  | _ => ""
  end%Z.

(** A linear congruential generator, standing in for the generator of
    [math/rand], whose tables are not part of this repository. *)
Definition lcg_New (seed : Z) : Z := (seed mod 2147483648)%Z.

Definition lcg_Intn (g n : Z) : Z * Z :=
  let g' := ((g * 1103515245 + 12345) mod 2147483648)%Z in
  (((g' / 65536) mod n)%Z, g').

Section Fault.

(** What the file takes from outside: the table [http.StatusText], the
    generator of [math/rand] ([rand_New s] is [rand.New(rand.NewSource(s))],
    [Intn g n] is the result of [g.Intn(n)] and the generator after the
    draw), and the constant [defaultRandSeed]. *)
Context (http_StatusText : Z -> string).
Context {Rand : Type} (rand_New : Z -> Rand) (Intn : Rand -> Z -> Z * Rand).
Context (defaultRandSeed : Z).

(** The fields [rand] and [randF] are assigned together, [randF] being the
    method value [rand.Intn]: one field [rand] stands for both, [None] when
    they are nil (a struct not made by [NewRandomInjector]). *)
Record RandomInjector := mkRandomInjector {
  random_middlewares : list Injector;
  random_reporter : option Reporter;
  rand : option Rand
}.

(** The world: one heap per injector type, the captured [next] variables of
    the chain closures, and the trace. *)
Record World := mkWorld {
  chains : list ChainInjector;
  randoms : list RandomInjector;
  rejects : list RejectInjector;
  errors : list ErrorInjector;
  slows : list SlowInjector;
  vars : list Handler;
  trace : list Event
}.

Definition empty_world : World := mkWorld [] [] [] [] [] [] [].

Definition with_chains (f : list ChainInjector -> list ChainInjector) (st : World) : World :=
  mkWorld (f (chains st)) (randoms st) (rejects st) (errors st) (slows st) (vars st) (trace st).
Definition with_randoms (f : list RandomInjector -> list RandomInjector) (st : World) : World :=
  mkWorld (chains st) (f (randoms st)) (rejects st) (errors st) (slows st) (vars st) (trace st).
Definition with_rejects (f : list RejectInjector -> list RejectInjector) (st : World) : World :=
  mkWorld (chains st) (randoms st) (f (rejects st)) (errors st) (slows st) (vars st) (trace st).
Definition with_errors (f : list ErrorInjector -> list ErrorInjector) (st : World) : World :=
  mkWorld (chains st) (randoms st) (rejects st) (f (errors st)) (slows st) (vars st) (trace st).
Definition with_slows (f : list SlowInjector -> list SlowInjector) (st : World) : World :=
  mkWorld (chains st) (randoms st) (rejects st) (errors st) (f (slows st)) (vars st) (trace st).
Definition with_vars (f : list Handler -> list Handler) (st : World) : World :=
  mkWorld (chains st) (randoms st) (rejects st) (errors st) (slows st) (f (vars st)) (trace st).

(** Append events to the trace. *)
Definition emit (es : list Event) (st : World) : World :=
  mkWorld (chains st) (randoms st) (rejects st) (errors st) (slows st) (vars st) (trace st ++ es).

(** Modelled from the spec: [reportWithMessage] is not in [injector.go].
    The observer is optional and "absence of an observer is always a valid,
    silent no-op": with a reporter attached its [Report] is called once,
    with none nothing happens. *)
Definition reportWithMessage (r : option Reporter) (name : string) (s : InjectorState) : list Event :=
  match r with
  | Some rep => [EvReport rep name s]
  | None => []
  end.

(** ** Constructors *)

(** [NewChainInjector(is ...Injector)], with [injs] the arguments: the loop
    appends [i.Handler] of each injector in turn. It allocates the struct
    and returns its address, with a nil error. *)
Definition NewChainInjector (injs : list Injector) (st : World) : (ptr * option error) * World :=
  let chainInjector := mkChainInjector (foldl (fun ms i => ms ++ [i]) [] injs) None in
  ((Some (length (chains st)), None), with_chains (fun h => h ++ [chainInjector]) st).

(** [NewRandomInjector(is ...Injector)]: the generator is made from
    [defaultRandSeed], the members are appended in turn. *)
Definition NewRandomInjector (injs : list Injector) (st : World) : (ptr * option error) * World :=
  let randomInjector :=
    mkRandomInjector (foldl (fun ms i => ms ++ [i]) [] injs) None (Some (rand_New defaultRandSeed)) in
  ((Some (length (randoms st)), None), with_randoms (fun h => h ++ [randomInjector]) st).

(** [NewRejectInjector()]. *)
Definition NewRejectInjector (st : World) : (ptr * option error) * World :=
  ((Some (length (rejects st)), None), with_rejects (fun h => h ++ [mkRejectInjector None]) st).

(** [NewErrorInjector(code int)]. *)
Definition NewErrorInjector (code : Z) (st : World) : (ptr * option error) * World :=
  let text := http_StatusText code in
  if String.eqb text "" then ((None, Some ErrInvalidHTTPCode), st)
  else ((Some (length (errors st)), None),
        with_errors (fun h => h ++ [mkErrorInjector code text None]) st).

(** [NewSlowInjector(d time.Duration)]. *)
Definition NewSlowInjector (d : Duration) (st : World) : (ptr * option error) * World :=
  ((Some (length (slows st)), None),
   with_slows (fun h => h ++ [mkSlowInjector d None (Some time_Sleep)]) st).

(** ** Setters *)

(** A store through a pointer: a nil pointer panics. *)
Definition store {A} (heap : World -> list A) (upd : (list A -> list A) -> World -> World)
    (i : ptr) (f : A -> A) (st : World) : Outcome * World :=
  match i with
  | None => (Panicked NilDereference, st)
  | Some a =>
      match heap st !! a with
      | Some _ => (Returned, upd (alter f a) st)
      | None => (BadPointer, st)
      end
  end.

(** The assignment [i.reporter = r] on a chain and on a random injector. *)
Definition set_chain_reporter (r : option Reporter) (c : ChainInjector) : ChainInjector :=
  mkChainInjector (chain_middlewares c) r.

Definition set_random_reporter (r : option Reporter) (c : RandomInjector) : RandomInjector :=
  mkRandomInjector (random_middlewares c) r (rand c).

(** [func (i *ChainInjector) SetReporter(r Reporter)]. *)
Definition ChainInjector_SetReporter (i : ptr) (r : option Reporter) : World -> Outcome * World :=
  store chains with_chains i (set_chain_reporter r).

(** [func (i *RandomInjector) SetReporter(r Reporter)]. *)
Definition RandomInjector_SetReporter (i : ptr) (r : option Reporter) : World -> Outcome * World :=
  store randoms with_randoms i (set_random_reporter r).

(** [func (i *RejectInjector) SetReporter(r Reporter)]. *)
Definition RejectInjector_SetReporter (i : ptr) (r : option Reporter) : World -> Outcome * World :=
  store rejects with_rejects i (fun _ => mkRejectInjector r).

(** [func (i *ErrorInjector) SetReporter(r Reporter)]. *)
Definition ErrorInjector_SetReporter (i : ptr) (r : option Reporter) : World -> Outcome * World :=
  store errors with_errors i (fun c => mkErrorInjector (statusCode c) (statusText c) r).

(** [func (i *SlowInjector) SetReporter(r Reporter)]. *)
Definition SlowInjector_SetReporter (i : ptr) (r : option Reporter) : World -> Outcome * World :=
  store slows with_slows i (fun c => mkSlowInjector (duration c) r (sleep c)).

(** [func (i *RandomInjector) SetRandSeed(s int64)]. *)
Definition RandomInjector_SetRandSeed (i : ptr) (s : Z) : World -> Outcome * World :=
  store randoms with_randoms i
    (fun c => mkRandomInjector (random_middlewares c) (random_reporter c) (Some (rand_New s))).

(** ** The [Handler] methods: building the closures *)

(** [func (i *ChainInjector) Handler(next http.Handler) http.Handler]: the
    closure is returned without being run. Its captured variable [next] is
    the parameter of this call, a new variable each time. *)
Definition ChainInjector_Handler (i : ptr) (next : Handler) (st : World) : Handler * World :=
  (ChainFunc i (length (vars st)), with_vars (fun v => v ++ [next]) st).

Definition RandomInjector_Handler (i : ptr) (next : Handler) (st : World) : Handler * World :=
  (RandomFunc i next, st).

Definition RejectInjector_Handler (i : ptr) (next : Handler) (st : World) : Handler * World :=
  (RejectFunc i next, st).

Definition ErrorInjector_Handler (i : ptr) (next : Handler) (st : World) : Handler * World :=
  (ErrorFunc i next, st).

Definition SlowInjector_Handler (i : ptr) (next : Handler) (st : World) : Handler * World :=
  (SlowFunc i next, st).

(** Calling an element of a [middlewares] slice. *)
Definition Injector_Handler (m : Injector) (next : Handler) (st : World) : Handler * World :=
  match m with
  | IChain i => ChainInjector_Handler i next st
  | IRandom i => RandomInjector_Handler i next st
  | IReject i => RejectInjector_Handler i next st
  | IError i => ErrorInjector_Handler i next st
  | ISlow i => SlowInjector_Handler i next st
  end.

(** ** Running the closures *)

(** A draw advances the generator [i.rand] points to; the other fields of
    the struct are left as they are. *)
Definition advance (g' : Rand) (c : RandomInjector) : RandomInjector :=
  mkRandomInjector (random_middlewares c) (random_reporter c) (Some g').

(** The loop of the chain closure,
    [for idx := len(i.middlewares) - 1; idx >= 0; idx-- { next = i.middlewares[idx](next) }],
    with [n] the number of indices still to visit and [x] the address of
    the captured variable [next]. *)
Fixpoint chain_loop (ms : list Injector) (n : nat) (x : addr) (st : World) : option World :=
  match n with
  | 0 => Some st
  | S idx =>
      match ms !! idx, vars st !! x with
      | Some m, Some next =>
          let '(h, st1) := Injector_Handler m next st in
          chain_loop ms idx x (with_vars (fun v => <[x := h]> v) st1)
      | _, _ => None
      end
  end.

Section Bodies.

(** [serve h r st] is the call [h.ServeHTTP(w, r)]. *)
Variable serve : Handler -> Request -> World -> Outcome * World.

(** The closure of [ChainInjector.Handler]. *)
Definition ChainFunc_body (i : ptr) (x : addr) (r : Request) (st : World) : Outcome * World :=
  match i with
  | Some a =>
      match chains st !! a with
      | None => (BadPointer, st)
      | Some c =>
          let r := updateRequestContextValue r ContextValueChainInjector in
          match chain_loop (chain_middlewares c) (length (chain_middlewares c)) x st with
          | None => (BadPointer, st)
          | Some st1 =>
              match vars st1 !! x with
              | Some next => serve next r st1
              | None => (BadPointer, st1)
              end
          end
      end
  | None =>
      match vars st !! x with
      | Some next => serve next r st
      | None => (BadPointer, st)
      end
  end.

(** The closure of [RandomInjector.Handler]. *)
Definition RandomFunc_body (i : ptr) (next : Handler) (r : Request) (st : World) : Outcome * World :=
  match i with
  | Some a =>
      match randoms st !! a with
      | None => (BadPointer, st)
      | Some c =>
          if 0 <? length (random_middlewares c) then
            let r := updateRequestContextValue r ContextValueRandomInjector in
            let n := Z.of_nat (length (random_middlewares c)) in
            match rand c with
            | None => (Panicked NilDereference, st)
            | Some g =>
                let '(k, g') := Intn g n in
                let st1 := emit [EvIntn a n k] (with_randoms (alter (advance g') a) st) in
                match index (random_middlewares c) k with
                | None => (Panicked IndexOutOfRange, st1)
                | Some m =>
                    let '(h, st2) := Injector_Handler m next st1 in
                    serve h r st2
                end
            end
          else serve next r st
      end
  | None => serve next r st
  end.

(** The closure of [RejectInjector.Handler]. *)
Definition RejectFunc_body (i : ptr) (next : Handler) (r : Request) (st : World) : Outcome * World :=
  match i with
  | Some a =>
      match rejects st !! a with
      | None => (BadPointer, st)
      | Some c =>
          (Panicked ErrAbortHandler,
           emit (reportWithMessage (reject_reporter c) RejectInjector_Name StateStarted) st)
      end
  | None => (Panicked ErrAbortHandler, st)
  end.

(** The closure of [ErrorInjector.Handler]. *)
Definition ErrorFunc_body (i : ptr) (next : Handler) (r : Request) (st : World) : Outcome * World :=
  match i with
  | Some a =>
      match errors st !! a with
      | None => (BadPointer, st)
      | Some c =>
          let st1 := emit (reportWithMessage (error_reporter c) ErrorInjector_Name StateStarted) st in
          if negb (String.eqb (http_StatusText (statusCode c)) "") then
            (Returned, emit [EvError (statusText c) (statusCode c)] st1)
          else serve next r st1
      end
  | None => serve next r st
  end.

(** The closure of [SlowInjector.Handler]. *)
Definition SlowFunc_body (i : ptr) (next : Handler) (r : Request) (st : World) : Outcome * World :=
  match i with
  | Some a =>
      match slows st !! a with
      | None => (BadPointer, st)
      | Some c =>
          match sleep c with
          | Some f =>
              let st1 := emit (reportWithMessage (slow_reporter c) SlowInjector_Name StateStarted) st in
              let st2 := emit [EvSleep f (duration c)] st1 in
              let st3 := emit (reportWithMessage (slow_reporter c) SlowInjector_Name StateFinished) st2 in
              serve next (updateRequestContextValue r ContextValueSlowInjector) st3
          | None => serve next (updateRequestContextValue r ContextValueSkipped) st
          end
      end
  | None => serve next (updateRequestContextValue r ContextValueSkipped) st
  end.

End Bodies.

(** [h.ServeHTTP(w, r)], with a bound on the depth of nested calls. What is
    written to [w] is in the trace. *)
Fixpoint ServeHTTP (fuel : nat) (h : Handler) (r : Request) (st : World) : Outcome * World :=
  match fuel with
  | 0 => (OutOfFuel, st)
  | S fuel =>
      match h with
      | AppHandler id => (Returned, emit [EvServe id r] st)
      | ChainFunc i x => ChainFunc_body (ServeHTTP fuel) i x r st
      | RandomFunc i next => RandomFunc_body (ServeHTTP fuel) i next r st
      | RejectFunc i next => RejectFunc_body i next r st
      | ErrorFunc i next => ErrorFunc_body (ServeHTTP fuel) i next r st
      | SlowFunc i next => SlowFunc_body (ServeHTTP fuel) i next r st
      end
  end.

(** The server calls the handler once for each request, one after the
    other; a panic ends the request it happens in and no more. *)
Fixpoint serve_all (fuel : nat) (h : Handler) (rs : list Request) (st : World) : World :=
  match rs with
  | [] => st
  | r :: rs => serve_all fuel h rs (ServeHTTP fuel h r st).2
  end.

(** The composition the chain is documented to be: the [Handler] of member
    0 applied to (the [Handler] of member 1 applied to (... applied to
    [d])). The innermost call is made first. *)
Fixpoint nested_wrap (ms : list Injector) (d : Handler) (st : World) : Handler * World :=
  match ms with
  | [] => (d, st)
  | m :: ms => let '(h, st1) := nested_wrap ms d st in Injector_Handler m h st1
  end.

(** ** Observations on a trace *)

(** The indices the random injector at address [a] drew, oldest first. *)
Definition selection_of (a : addr) (e : Event) : option Z :=
  match e with
  | EvIntn i _ k => if decide (i = a) then Some k else None
  | _ => None
  end.

Definition selections (a : addr) (tr : list Event) : list Z := omap (selection_of a) tr.

(** The first [k] results of [g.Intn(n)]. *)
Fixpoint draws (g : Rand) (n : Z) (k : nat) : list Z :=
  match k with
  | 0 => []
  | S k => let '(x, g') := Intn g n in x :: draws g' n k
  end.

(** What [math/rand] documents of [Intn]: for [n > 0] the result is in the
    half-open interval [[0, n)]. *)
Definition Intn_in_range : Prop :=
  ∀ (g : Rand) (n : Z), (0 < n)%Z → (0 ≤ (Intn g n).1 < n)%Z.

(** The world holds no reference to the random injector at address [a]:
    no element of a [middlewares] slice is its [Handler] method and no
    handler is one of its closures. So it is of every world for an address
    not allocated yet. *)
Definition apart_injector (a : addr) (m : Injector) : bool :=
  match m with
  | IRandom (Some b) => negb (b =? a)
  | _ => true
  end.

Fixpoint apart_handler (a : addr) (h : Handler) : bool :=
  match h with
  | AppHandler _ | ChainFunc _ _ => true
  | RandomFunc (Some b) next => negb (b =? a) && apart_handler a next
  | RandomFunc None next | RejectFunc _ next | ErrorFunc _ next | SlowFunc _ next =>
      apart_handler a next
  end.

Definition apart_world (a : addr) (st : World) : bool :=
  forallb (fun c => forallb (apart_injector a) (chain_middlewares c)) (chains st)
  && forallb (fun c => forallb (apart_injector a) (random_middlewares c)) (randoms st)
  && forallb (apart_handler a) (vars st).

(** The number of calls of a [sleep] function in a trace. *)
Definition is_sleep (e : Event) : bool :=
  match e with
  | EvSleep _ _ => true
  | _ => false
  end.

Definition sleep_count (tr : list Event) : nat := length (List.filter is_sleep tr).

(** What a request may change of the world: [st'] has the structs of [st]
    with the same members, reporters, codes, texts, durations and sleep
    functions (of a random injector the generator alone may differ), no
    fewer closure variables, and the trace of [st] with events added. *)
Definition served_from (st st' : World) : Prop :=
  chains st' = chains st
  ∧ rejects st' = rejects st
  ∧ errors st' = errors st
  ∧ slows st' = slows st
  ∧ (fun c => (random_middlewares c, random_reporter c)) <$> randoms st'
    = (fun c => (random_middlewares c, random_reporter c)) <$> randoms st
  ∧ length (vars st) ≤ length (vars st')
  ∧ ∃ es, trace st' = trace st ++ es.

(** [r'] is [r] after some calls of [updateRequestContextValue]. *)
Definition tagged_from (r r' : Request) : Prop :=
  ∃ tags : list ContextString, r' = foldl updateRequestContextValue r tags.

(** The events [es] call application handlers with [r], tagged, and with
    no other request. *)
Definition serves_only (r : Request) (es : list Event) : Prop :=
  Forall (fun e => match e with
                   | EvServe _ r' => tagged_from r r'
                   | _ => True
                   end) es.

(** ** Properties *)

Implicit Types (st : World) (h d next : Handler) (r : Request) (a b x : addr) (i : ptr).

(** *** The trace *)

Lemma emit_nil st : emit [] st = st.
Proof. destruct st; unfold emit; simpl. by rewrite app_nil_r. Qed.

Lemma emit_emit es1 es2 st : emit es2 (emit es1 st) = emit (es1 ++ es2) st.
Proof. unfold emit; simpl. by rewrite app_assoc. Qed.

Lemma lookup_fresh {A} (l : list A) (y : A) : (l ++ [y]) !! length l = Some y.
Proof. by rewrite lookup_app_r, Nat.sub_diag by lia. Qed.

(** *** NewErrorInjector *)

(** C3. [NewErrorInjector(code)] succeeds exactly on the codes that have a
    non-empty text in the status table: it then returns a new injector that
    stores the code and the text of the table for it, with no error, and
    changes nothing else; on a code without text it returns the nil pointer
    and [ErrInvalidHTTPCode], and the world is left as it was. *)
Theorem NewErrorInjector_table (code : Z) st :
  (http_StatusText code ≠ "" →
     ∃ a st',
       NewErrorInjector code st = ((Some a, None), st')
       ∧ errors st !! a = None
       ∧ st' = with_errors (λ l, l ++ [mkErrorInjector code (http_StatusText code) None]) st
       ∧ (statusText <$> errors st' !! a) = Some (http_StatusText code)
       ∧ (statusCode <$> errors st' !! a) = Some code)
  ∧ (http_StatusText code = "" →
     NewErrorInjector code st = ((None, Some ErrInvalidHTTPCode), st)).
Proof.
  unfold NewErrorInjector. split; intros Htext.
  - apply String.eqb_neq in Htext. rewrite Htext.
    eexists _, _. split; [reflexivity|]. simpl.
    rewrite lookup_fresh. repeat split.
    apply lookup_ge_None_2. lia.
  - rewrite Htext. reflexivity.
Qed.

(** *** RejectInjector.Handler *)

(** C4 (amended). However the receiver is, an invocation of the handler of
    [RejectInjector.Handler(d)] panics with [http.ErrAbortHandler], whatever
    [d] is: [d] is not called, nothing is written and no Finished report is
    made. With a non-nil receiver the Started report is made once before
    the panic, to the reporter of the injector (one [Report] call when a
    reporter is attached, none when it is nil); with a nil receiver nothing
    is reported at all. Nothing but the trace changes. *)
Theorem RejectInjector_Handler_aborts i d r st0 st fuel :
  let h := (RejectInjector_Handler i d st0).1 in
  (∀ a c, i = Some a → rejects st !! a = Some c →
     ServeHTTP (S fuel) h r st =
       (Panicked ErrAbortHandler,
        emit (reportWithMessage (reject_reporter c) RejectInjector_Name StateStarted) st)
     ∧ (∀ rep, reject_reporter c = Some rep →
          trace (ServeHTTP (S fuel) h r st).2
          = trace st ++ [EvReport rep "Reject Injector" StateStarted])
     ∧ (reject_reporter c = None → (ServeHTTP (S fuel) h r st).2 = st))
  ∧ (i = None → ServeHTTP (S fuel) h r st = (Panicked ErrAbortHandler, st)).
Proof.
  simpl. split.
  - intros a c -> Hc. unfold RejectFunc_body. rewrite Hc. split; [done|].
    split.
    + by intros rep ->.
    + intros ->. simpl. apply emit_nil.
  - by intros ->.
Qed.

(** *** ErrorInjector.Handler *)

Lemma ErrorFunc_writes a c d r st fuel :
  errors st !! a = Some c →
  http_StatusText (statusCode c) ≠ "" →
  ServeHTTP (S fuel) (ErrorFunc (Some a) d) r st =
    (Returned,
     emit (reportWithMessage (error_reporter c) ErrorInjector_Name StateStarted
           ++ [EvError (statusText c) (statusCode c)]) st).
Proof.
  intros Hc Htext. simpl. unfold ErrorFunc_body. rewrite Hc.
  apply String.eqb_neq in Htext. rewrite Htext. simpl.
  by rewrite emit_emit.
Qed.

(** C5. [NewErrorInjector(code)] without error returns a new struct that
    holds [code] and the text of the table for it. In every world where the
    struct is so, whatever reporter has been set in it since, an invocation
    of the handler of [Handler(d)] makes the Started report to that
    reporter, calls [http.Error] with the text of the table for [code] and
    with [code], and returns; the result does not depend on [d], which is
    not called. And for an [ErrorInjector] struct whose code has no text in
    the table when the handler runs, the handler makes the Started report
    and then is the call of [d] with the same request. *)
Theorem ErrorInjector_Handler_writes (code : Z) d r fuel :
  (∀ i st0 st1,
     NewErrorInjector code st0 = ((i, None), st1) →
     ∃ a, i = Some a
       ∧ errors st1 !! a = Some (mkErrorInjector code (http_StatusText code) None)
       ∧ ∀ rep st' st,
           errors st !! a = Some (mkErrorInjector code (http_StatusText code) rep) →
           ServeHTTP (S fuel) (ErrorInjector_Handler i d st').1 r st =
             (Returned,
              emit (reportWithMessage rep "Error Injector" StateStarted
                    ++ [EvError (http_StatusText code) code]) st))
  ∧ (∀ a c st' st,
       errors st !! a = Some c →
       http_StatusText (statusCode c) = "" →
       ServeHTTP (S fuel) (ErrorInjector_Handler (Some a) d st').1 r st =
         ServeHTTP fuel d r
           (emit (reportWithMessage (error_reporter c) "Error Injector" StateStarted) st)).
Proof.
  split.
  - intros i st0 st1 Hnew.
    unfold NewErrorInjector in Hnew.
    destruct (String.eqb (http_StatusText code) "") eqn:Htext; [done|].
    apply String.eqb_neq in Htext.
    injection Hnew as <- <-.
    exists (length (errors st0)). split; [done|]. split.
    + simpl. apply lookup_fresh.
    + intros rep st' st Hc.
      exact (ErrorFunc_writes (length (errors st0))
               (mkErrorInjector code (http_StatusText code) rep) d r st fuel Hc Htext).
  - intros a c st' st Hc Htext. simpl. unfold ErrorFunc_body.
    by rewrite Hc, Htext.
Qed.

(** *** SlowInjector.Handler *)

(** C6. A [SlowInjector] with a delay function [f]: every invocation of
    the handler of [Handler(d)] makes the Started report, calls [f] once
    with the configured duration, makes the Finished report, and then is
    one call of [d] with the request tagged [ContextValueSlowInjector].
    With no delay function: the invocation is one call of [d] with the
    request tagged [ContextValueSkipped], and nothing is reported before
    it. *)
Theorem SlowInjector_Handler_delays a c d r st0 st fuel :
  slows st !! a = Some c →
  let h := (SlowInjector_Handler (Some a) d st0).1 in
  (∀ f, sleep c = Some f →
     ServeHTTP (S fuel) h r st =
       ServeHTTP fuel d (updateRequestContextValue r ContextValueSlowInjector)
         (emit (reportWithMessage (slow_reporter c) "Slow Injector" StateStarted
                ++ [EvSleep f (duration c)]
                ++ reportWithMessage (slow_reporter c) "Slow Injector" StateFinished) st))
  ∧ (sleep c = None →
     ServeHTTP (S fuel) h r st =
       ServeHTTP fuel d (updateRequestContextValue r ContextValueSkipped) st).
Proof.
  intros Hc. simpl. unfold SlowFunc_body. rewrite Hc. split.
  - intros f ->. by rewrite !emit_emit.
  - by intros ->.
Qed.

(** *** Nil receivers *)

(** C9. On a nil receiver the handlers of [ChainInjector], [RandomInjector]
    and [ErrorInjector] are the call of [d] with the request they were
    given (for the chain, in the world where the handler was made and in
    every world where its variable [next] still holds [d], which the
    handler itself never assigns on a nil receiver); the handler of [SlowInjector] is the call of [d] with the
    request tagged [ContextValueSkipped], on a nil receiver and also on a
    receiver whose [sleep] is nil; nothing is reported or written before
    the call. The handler of [RejectInjector] on a nil receiver panics with
    [http.ErrAbortHandler], the world unchanged, [d] not called. *)
Theorem nil_receiver_Handler d r st fuel :
  (let '(h, st1) := ChainInjector_Handler None d st in
   ServeHTTP (S fuel) h r st1 = ServeHTTP fuel d r st1
   ∧ ∀ st', vars st' !! length (vars st) = Some d →
       ServeHTTP (S fuel) h r st' = ServeHTTP fuel d r st')
  ∧ (let '(h, st1) := RandomInjector_Handler None d st in
     ServeHTTP (S fuel) h r st1 = ServeHTTP fuel d r st1)
  ∧ (let '(h, st1) := ErrorInjector_Handler None d st in
     ServeHTTP (S fuel) h r st1 = ServeHTTP fuel d r st1)
  ∧ (let '(h, st1) := SlowInjector_Handler None d st in
     ServeHTTP (S fuel) h r st1 =
       ServeHTTP fuel d (updateRequestContextValue r ContextValueSkipped) st1)
  ∧ (∀ a c, slows st !! a = Some c → sleep c = None →
     let '(h, st1) := SlowInjector_Handler (Some a) d st in
     ServeHTTP (S fuel) h r st1 =
       ServeHTTP fuel d (updateRequestContextValue r ContextValueSkipped) st1)
  ∧ (let '(h, st1) := RejectInjector_Handler None d st in
     ServeHTTP (S fuel) h r st1 = (Panicked ErrAbortHandler, st1)).
Proof.
  repeat split.
  - simpl. unfold ChainFunc_body. simpl. by rewrite lookup_fresh.
  - intros st' Hd. simpl. unfold ChainFunc_body. by rewrite Hd.
  - intros a c Hc Hsleep. simpl. unfold SlowFunc_body. by rewrite Hc, Hsleep.
Qed.

(** *** RandomInjector.Handler *)

Lemma index_in_range {A} (s : list A) (k : Z) :
  (0 ≤ k < Z.of_nat (length s))%Z → ∃ m, index s k = Some m ∧ s !! Z.to_nat k = Some m.
Proof.
  intros Hk. unfold index.
  destruct (k <? 0)%Z eqn:Hneg; [lia|].
  destruct (lookup_lt_is_Some_2 s (Z.to_nat k)) as [m Hm]; [lia|].
  by exists m.
Qed.

(** C2. A [RandomInjector] with one member or more, whose generator draws
    in range: every invocation of the handler of [Handler(d)] draws one
    index [k] with [0 <= k < n] from the generator of the injector, [n]
    being the number of members, and is then the call of the handler that
    member [k] wraps around [d], with the request tagged
    [ContextValueRandomInjector]; nothing else happens, so no other member
    runs or reports. With no member the invocation is the call of [d]. *)
Theorem RandomInjector_Handler_delegates a c d r st0 st fuel :
  randoms st !! a = Some c →
  let h := (RandomInjector_Handler (Some a) d st0).1 in
  let n := Z.of_nat (length (random_middlewares c)) in
  (Intn_in_range → 0 < length (random_middlewares c) →
   ∀ g, rand c = Some g →
     ∃ m, let '(k, g') := Intn g n in
       (0 ≤ k < n)%Z
       ∧ random_middlewares c !! Z.to_nat k = Some m
       ∧ ServeHTTP (S fuel) h r st =
           let st1 := emit [EvIntn a n k] (with_randoms (alter (advance g') a) st) in
           let '(h', st2) := Injector_Handler m d st1 in
           ServeHTTP fuel h' (updateRequestContextValue r ContextValueRandomInjector) st2)
  ∧ (random_middlewares c = [] → ServeHTTP (S fuel) h r st = ServeHTTP fuel d r st).
Proof.
  intros Hc h n. subst h. simpl. unfold RandomFunc_body. rewrite Hc. split.
  - intros Hrange Hlen g Hg. rewrite Hg.
    destruct (0 <? length (random_middlewares c)) eqn:Hpos;
      [|apply Nat.ltb_ge in Hpos; lia].
    specialize (Hrange g n). fold n.
    destruct (Intn g n) as [k g'] eqn:Hdraw. simpl in Hrange.
    destruct (index_in_range (random_middlewares c) k) as (m & Hidx & Hm);
      [subst n; lia|].
    exists m. rewrite Hidx. repeat split; try done; subst n; lia.
  - intros Hnil. by rewrite Hnil.
Qed.

(** *** SetReporter of the combinators *)

(** A change of the world that the handlers do not see: it commutes with
    what they write and leaves what they read as it is. *)
Section Frame.

Variable T : World → World.
Hypothesis T_emit : ∀ es st, T (emit es st) = emit es (T st).
Hypothesis T_with_vars : ∀ f st, T (with_vars f st) = with_vars f (T st).
Hypothesis T_advance : ∀ g b st,
  T (with_randoms (alter (advance g) b) st) = with_randoms (alter (advance g) b) (T st).
Hypothesis T_vars : ∀ st, vars (T st) = vars st.
Hypothesis T_chains : ∀ st b,
  chain_middlewares <$> chains (T st) !! b = chain_middlewares <$> chains st !! b.
Hypothesis T_randoms : ∀ st b,
  (λ c, (random_middlewares c, rand c)) <$> randoms (T st) !! b
  = (λ c, (random_middlewares c, rand c)) <$> randoms st !! b.
Hypothesis T_rejects : ∀ st, rejects (T st) = rejects st.
Hypothesis T_errors : ∀ st, errors (T st) = errors st.
Hypothesis T_slows : ∀ st, slows (T st) = slows st.

Lemma Injector_Handler_frame m next st :
  Injector_Handler m next (T st) = prod_map id T (Injector_Handler m next st).
Proof.
  destruct m; try reflexivity.
  simpl. unfold ChainInjector_Handler, prod_map. simpl.
  by rewrite T_vars, T_with_vars.
Qed.

Lemma chain_loop_frame ms n x st :
  chain_loop ms n x (T st) = T <$> chain_loop ms n x st.
Proof.
  revert st. induction n as [|idx IH]; intros st; [done|].
  simpl. destruct (ms !! idx) as [m|]; [|done].
  rewrite T_vars. destruct (vars st !! x) as [next|]; [|done].
  rewrite Injector_Handler_frame.
  destruct (Injector_Handler m next st) as [h st1]. simpl.
  by rewrite <- T_with_vars, IH.
Qed.

Lemma ServeHTTP_frame fuel h r st :
  ServeHTTP fuel h r (T st) = prod_map id T (ServeHTTP fuel h r st).
Proof.
  revert h r st. induction fuel as [|fuel IH]; intros h r st; [done|].
  destruct h as [id|i x|i next|i next|i next|i next]; simpl.
  - by rewrite <- T_emit.
  - unfold ChainFunc_body. destruct i as [a|].
    + pose proof (T_chains st a) as Hc.
      destruct (chains st !! a) as [c|], (chains (T st) !! a) as [c'|];
        simpl in Hc; try done.
      injection Hc as ->. rewrite chain_loop_frame.
      destruct (chain_loop _ _ _ st) as [st1|]; simpl; [|done].
      rewrite T_vars. destruct (vars st1 !! x); [apply IH|done].
    + rewrite T_vars. destruct (vars st !! x); [apply IH|done].
  - unfold RandomFunc_body. destruct i as [a|]; [|apply IH].
    pose proof (T_randoms st a) as Hc.
    destruct (randoms st !! a) as [c|], (randoms (T st) !! a) as [c'|];
      simpl in Hc; try done.
    injection Hc as -> ->.
    destruct (0 <? _); [|apply IH].
    destruct (rand c) as [g|]; [|done].
    destruct (Intn g _) as [k g'].
    rewrite <- T_advance, <- T_emit.
    destruct (index _ k) as [m|]; [|done].
    rewrite Injector_Handler_frame.
    destruct (Injector_Handler m next _) as [h' st2]. simpl. apply IH.
  - unfold RejectFunc_body. destruct i as [a|]; [|done].
    rewrite T_rejects. destruct (rejects st !! a); [|done].
    by rewrite <- T_emit.
  - unfold ErrorFunc_body. destruct i as [a|]; [|apply IH].
    rewrite T_errors. destruct (errors st !! a) as [c|]; [|done].
    rewrite <- T_emit.
    destruct (negb _); [|apply IH]. by rewrite <- T_emit.
  - unfold SlowFunc_body. destruct i as [a|]; [|apply IH].
    rewrite T_slows. destruct (slows st !! a) as [c|]; [|done].
    destruct (sleep c); [|apply IH].
    rewrite <- !T_emit. apply IH.
Qed.

End Frame.

Lemma set_chain_reporter_unseen a rep fuel h r st :
  ServeHTTP fuel h r (with_chains (alter (set_chain_reporter rep) a) st)
  = prod_map id (with_chains (alter (set_chain_reporter rep) a)) (ServeHTTP fuel h r st).
Proof.
  apply ServeHTTP_frame; try done.
  intros st1 b. simpl. rewrite list_lookup_alter.
  case_decide as Hab; [|done]. destruct Hab. by destruct (chains st1 !! a).
Qed.

Lemma set_random_reporter_unseen a rep fuel h r st :
  ServeHTTP fuel h r (with_randoms (alter (set_random_reporter rep) a) st)
  = prod_map id (with_randoms (alter (set_random_reporter rep) a)) (ServeHTTP fuel h r st).
Proof.
  apply ServeHTTP_frame; try done.
  - intros g b st1. unfold with_randoms. simpl. f_equal.
    destruct (decide (a = b)) as [->|Hne].
    + rewrite !list_alter_alter_eq. by apply list_alter_ext.
    + by apply list_alter_alter_ne.
  - intros st1 b. simpl. rewrite list_lookup_alter.
    case_decide as Hab; [|done]. destruct Hab. by destruct (randoms st1 !! a).
Qed.

(** C10. [SetReporter(r)] on a [ChainInjector] or a [RandomInjector]
    returns with only the [reporter] field of that struct changed: the
    members, the generator, the other structs, the closures' variables and
    the trace are as before. And no handler sees the change: every
    invocation of every handler, in the world after [SetReporter(r)], ends
    the same way with the same trace as in the world before it, and leaves
    the same world but for that field. So the combinator makes no report to
    [r], and the reports made are those of the members to the reporters of
    their own structs. *)
Theorem SetReporter_combinators_frame a rep st :
  (∀ c, chains st !! a = Some c →
     let st' := with_chains (alter (set_chain_reporter rep) a) st in
     ChainInjector_SetReporter (Some a) rep st = (Returned, st')
     ∧ chains st' = <[a := mkChainInjector (chain_middlewares c) rep]> (chains st)
     ∧ (randoms st', rejects st', errors st', slows st', vars st', trace st')
       = (randoms st, rejects st, errors st, slows st, vars st, trace st)
     ∧ ∀ fuel h r,
         ServeHTTP fuel h r st'
         = prod_map id (with_chains (alter (set_chain_reporter rep) a)) (ServeHTTP fuel h r st)
         ∧ (ServeHTTP fuel h r st').1 = (ServeHTTP fuel h r st).1
         ∧ trace (ServeHTTP fuel h r st').2 = trace (ServeHTTP fuel h r st).2)
  ∧ (∀ c, randoms st !! a = Some c →
     let st' := with_randoms (alter (set_random_reporter rep) a) st in
     RandomInjector_SetReporter (Some a) rep st = (Returned, st')
     ∧ randoms st'
       = <[a := mkRandomInjector (random_middlewares c) rep (rand c)]> (randoms st)
     ∧ (chains st', rejects st', errors st', slows st', vars st', trace st')
       = (chains st, rejects st, errors st, slows st, vars st, trace st)
     ∧ ∀ fuel h r,
         ServeHTTP fuel h r st'
         = prod_map id (with_randoms (alter (set_random_reporter rep) a)) (ServeHTTP fuel h r st)
         ∧ (ServeHTTP fuel h r st').1 = (ServeHTTP fuel h r st).1
         ∧ trace (ServeHTTP fuel h r st').2 = trace (ServeHTTP fuel h r st).2).
Proof.
  split; intros c Hc st'.
  - split; [|split; [|split; [done|]]].
    + unfold ChainInjector_SetReporter, store. by rewrite Hc.
    + simpl. rewrite list_insert_alter. apply list_alter_ext; [|done].
      intros c' Hc'. rewrite Hc in Hc'. by injection Hc' as <-.
    + intros fuel h r. subst st'. rewrite set_chain_reporter_unseen.
      by destruct (ServeHTTP fuel h r st).
  - split; [|split; [|split; [done|]]].
    + unfold RandomInjector_SetReporter, store. by rewrite Hc.
    + simpl. rewrite list_insert_alter. apply list_alter_ext; [|done].
      intros c' Hc'. rewrite Hc in Hc'. by injection Hc' as <-.
    + intros fuel h r. subst st'. rewrite set_random_reporter_unseen.
      by destruct (ServeHTTP fuel h r st).
Qed.

(** *** The selections of a RandomInjector *)

Lemma selections_emit a es st :
  selections a (trace (emit es st)) = selections a (trace st) ++ selections a es.
Proof. unfold selections. simpl. apply omap_app. Qed.

Lemma selections_report a rep name s : selections a (reportWithMessage rep name s) = [].
Proof. by destruct rep. Qed.

Lemma apart_world_Forall a st :
  apart_world a st ↔
    Forall (λ c, Forall (apart_injector a) (chain_middlewares c)) (chains st)
    ∧ Forall (λ c, Forall (apart_injector a) (random_middlewares c)) (randoms st)
    ∧ Forall (apart_handler a) (vars st).
Proof.
  unfold apart_world. rewrite !andb_True, !forallb_True.
  assert (∀ (A : Type) (f : A → list Injector) (l : list A),
            Forall (λ c, forallb (apart_injector a) (f c)) l
            ↔ Forall (λ c, Forall (apart_injector a) (f c)) l) as E.
  { intros A f l. apply Forall_iff. intros c. apply forallb_True. }
  rewrite (E _ chain_middlewares), (E _ random_middlewares). tauto.
Qed.

Lemma apart_world_emit a es st : apart_world a (emit es st) = apart_world a st.
Proof. done. Qed.

Lemma emit_quiet a es st :
  selections a es = [] → apart_world a st →
  apart_world a (emit es st)
  ∧ randoms (emit es st) !! a = randoms st !! a
  ∧ selections a (trace (emit es st)) = selections a (trace st).
Proof.
  intros Hes Hst. repeat split; try done.
  rewrite selections_emit, Hes. apply app_nil_r.
Qed.

Lemma Injector_Handler_apart a m next st :
  apart_injector a m → apart_handler a next → apart_world a st →
  apart_handler a (Injector_Handler m next st).1
  ∧ apart_world a (Injector_Handler m next st).2
  ∧ randoms (Injector_Handler m next st).2 = randoms st
  ∧ trace (Injector_Handler m next st).2 = trace st.
Proof.
  intros Hm Hnext Hst. destruct m as [i|[b|]|i|i|i]; simpl; try done.
  - repeat split; try done.
    apply apart_world_Forall in Hst as (Hc & Hr & Hv).
    apply apart_world_Forall. simpl. repeat split; try done.
    apply Forall_app. split; [done|]. by constructor.
  - repeat split; try done. simpl in Hm. by apply andb_True.
Qed.

Lemma chain_loop_apart a ms n x st st1 :
  Forall (apart_injector a) ms → apart_world a st →
  chain_loop ms n x st = Some st1 →
  apart_world a st1 ∧ randoms st1 = randoms st ∧ trace st1 = trace st.
Proof.
  intros Hms. revert st. induction n as [|idx IH]; intros st Hst Hloop; simpl in Hloop.
  - by injection Hloop as <-.
  - destruct (ms !! idx) as [m|] eqn:Hm; [|done].
    destruct (vars st !! x) as [next|] eqn:Hx; [|done].
    destruct (Injector_Handler_apart a m next st) as (Hh & Hst1 & Hr & Ht); [| |done|].
    { exact (Forall_lookup_1 _ _ _ _ Hms Hm). }
    { apply apart_world_Forall in Hst as (_ & _ & Hv).
      exact (Forall_lookup_1 _ _ _ _ Hv Hx). }
    destruct (Injector_Handler m next st) as [h st']. simpl in *.
    apply IH in Hloop as (Hst2 & Hr2 & Ht2).
    + simpl in Hr2, Ht2. repeat split; [done|congruence|congruence].
    + apply apart_world_Forall in Hst1 as (Hc & Hr' & Hv).
      apply apart_world_Forall. simpl. repeat split; try done.
      by apply Forall_insert.
Qed.

(** A handler that is no closure of the random injector at [a], in a world
    that holds no reference to it, leaves its generator alone. *)
Lemma ServeHTTP_apart a fuel h r st :
  apart_handler a h → apart_world a st →
  apart_world a (ServeHTTP fuel h r st).2
  ∧ randoms (ServeHTTP fuel h r st).2 !! a = randoms st !! a
  ∧ selections a (trace (ServeHTTP fuel h r st).2) = selections a (trace st).
Proof.
  revert h r st. induction fuel as [|fuel IH]; intros h r st Hh Hst; [done|].
  assert (Hst' := Hst). apply apart_world_Forall in Hst' as (Hchains & Hrandoms & Hvars).
  destruct h as [id|i x|i next|i next|i next|i next]; simpl.
  - by apply (emit_quiet a [EvServe id r] st).
  - unfold ChainFunc_body. destruct i as [b|].
    + destruct (chains st !! b) as [c|] eqn:Hc; [|done].
      destruct (chain_loop _ _ x st) as [st1|] eqn:Hloop; [|done].
      apply chain_loop_apart with (a := a) in Hloop as (Hst1 & Hr1 & Ht1);
        [| exact (Forall_lookup_1 _ _ _ _ Hchains Hc) | done].
      destruct (vars st1 !! x) as [next|] eqn:Hx;
        [|simpl; by rewrite Hr1, Ht1].
      rewrite <- Hr1, <- Ht1. apply IH; [|done].
      apply apart_world_Forall in Hst1 as (_ & _ & Hv).
      exact (Forall_lookup_1 _ _ _ _ Hv Hx).
    + destruct (vars st !! x) as [next|] eqn:Hx; [|done].
      apply IH; [|done]. exact (Forall_lookup_1 _ _ _ _ Hvars Hx).
  - unfold RandomFunc_body. destruct i as [b|]; [|by apply IH].
    simpl in Hh. apply andb_True in Hh as [Hb Hnext].
    apply negb_True in Hb.
    assert (b ≠ a) as Hne. { intros ->. apply Hb. by rewrite Nat.eqb_refl. }
    destruct (randoms st !! b) as [c|] eqn:Hc; [|done].
    destruct (0 <? _); [|by apply IH].
    destruct (rand c) as [g|]; [|done].
    destruct (Intn g _) as [k g'].
    set (st1 := emit _ _).
    assert (apart_world a st1) as Hst1.
    { apply apart_world_Forall. simpl. repeat split; try done.
      apply Forall_alter; [done|]. by intros c' Hc' Hp. }
    assert (randoms st1 !! a = randoms st !! a) as Hr1.
    { simpl. by apply list_lookup_alter_ne. }
    assert (selections a (trace st1) = selections a (trace st)) as Ht1.
    { unfold st1. rewrite selections_emit. simpl. unfold selection_of.
      case_decide; [done|]. apply app_nil_r. }
    destruct (index _ k) as [m|] eqn:Hidx; [|done].
    destruct (Injector_Handler_apart a m next st1) as (Hh' & Hst2 & Hr2 & Ht2);
      [|done|done|].
    { unfold index in Hidx. destruct (k <? 0)%Z; [done|].
      exact (Forall_lookup_1 _ _ _ _ (Forall_lookup_1 _ _ _ _ Hrandoms Hc) Hidx). }
    destruct (Injector_Handler m next st1) as [h' st2]. simpl in *.
    rewrite <- Hr1, <- Ht1, <- Hr2, <- Ht2. by apply IH.
  - unfold RejectFunc_body. destruct i as [b|]; [|done].
    destruct (rejects st !! b) as [c|]; [|done].
    apply (emit_quiet a (reportWithMessage _ _ _) st); [|done].
    apply selections_report.
  - unfold ErrorFunc_body. destruct i as [b|]; [|by apply IH].
    destruct (errors st !! b) as [c|]; [|done].
    set (st1 := emit _ st).
    destruct (emit_quiet a (reportWithMessage (error_reporter c) ErrorInjector_Name StateStarted) st)
      as (Hst1 & Hr1 & Ht1); [apply selections_report|done|].
    fold st1 in Hst1, Hr1, Ht1.
    destruct (negb _).
    + destruct (emit_quiet a [EvError (statusText c) (statusCode c)] st1)
        as (Hst2 & Hr2 & Ht2); [done|done|].
      split; [done|]. split; [exact (eq_trans Hr2 Hr1)|exact (eq_trans Ht2 Ht1)].
    + rewrite <- Ht1, <- Hr1. by apply IH.
  - unfold SlowFunc_body. destruct i as [b|]; [|by apply IH].
    destruct (slows st !! b) as [c|]; [|done].
    destruct (sleep c) as [f|]; [|by apply IH].
    set (st3 := emit _ (emit _ (emit _ st))).
    assert (selections a (trace st3) = selections a (trace st)) as Ht3.
    { unfold st3. by rewrite !selections_emit, !selections_report, !app_nil_r. }
    rewrite <- Ht3. change (randoms st) with (randoms st3). by apply IH.
Qed.

Lemma RandomFunc_draws a c g d r st fuel :
  randoms st !! a = Some c → rand c = Some g →
  0 < length (random_middlewares c) →
  apart_handler a d → apart_world a st →
  let n := Z.of_nat (length (random_middlewares c)) in
  let st' := (ServeHTTP (S fuel) (RandomFunc (Some a) d) r st).2 in
  apart_world a st'
  ∧ randoms st' !! a = Some (advance (Intn g n).2 c)
  ∧ selections a (trace st') = selections a (trace st) ++ [(Intn g n).1].
Proof.
  intros Hc Hg Hlen Hd Hst n st'. subst st'. simpl. unfold RandomFunc_body.
  rewrite Hc, Hg. fold n.
  destruct (0 <? length (random_middlewares c)) eqn:Hpos;
    [|apply Nat.ltb_ge in Hpos; lia].
  destruct (Intn g n) as [k g']. simpl.
  set (st1 := emit _ _).
  assert (Hst' := Hst). apply apart_world_Forall in Hst' as (Hchains & Hrandoms & Hvars).
  assert (apart_world a st1) as Hst1.
  { apply apart_world_Forall. simpl. repeat split; try done.
    apply Forall_alter; [done|]. by intros c' Hc' Hp. }
  assert (randoms st1 !! a = Some (advance g' c)) as Hr1.
  { simpl. by rewrite list_lookup_alter_eq, Hc. }
  assert (selections a (trace st1) = selections a (trace st) ++ [k]) as Ht1.
  { unfold st1. rewrite selections_emit. simpl. unfold selection_of.
    by case_decide. }
  destruct (index _ k) as [m|] eqn:Hidx; [|done].
  destruct (Injector_Handler_apart a m d st1) as (Hh' & Hst2 & Hr2 & Ht2);
    [|done|done|].
  { unfold index in Hidx. destruct (k <? 0)%Z; [done|].
    exact (Forall_lookup_1 _ _ _ _ (Forall_lookup_1 _ _ _ _ Hrandoms Hc) Hidx). }
  destruct (Injector_Handler m d st1) as [h' st2]. simpl in *.
  rewrite <- Hr1, <- Ht1, <- Hr2, <- Ht2. by apply ServeHTTP_apart.
Qed.

Lemma serve_all_draws a d fuel (rs : list Request) st c g :
  randoms st !! a = Some c → rand c = Some g →
  0 < length (random_middlewares c) →
  apart_handler a d → apart_world a st →
  selections a (trace (serve_all (S fuel) (RandomFunc (Some a) d) rs st))
  = selections a (trace st)
    ++ draws g (Z.of_nat (length (random_middlewares c))) (length rs).
Proof.
  intros Hc Hg Hlen Hd. revert st c g Hc Hg Hlen.
  induction rs as [|r rs IH]; intros st c g Hc Hg Hlen Hst.
  - simpl. by rewrite app_nil_r.
  - cbn [serve_all length draws].
    destruct (RandomFunc_draws a c g d r st fuel) as (Hst1 & Hr1 & Ht1); try done.
    destruct (Intn g _) as [k g'] eqn:Hdraw. cbn [fst snd] in Hr1, Ht1.
    rewrite (IH _ (advance g' c) g'); try done.
    by rewrite Ht1, <- app_assoc.
Qed.

Lemma foldl_snoc {A} (acc l : list A) : foldl (λ ms y, ms ++ [y]) acc l = acc ++ l.
Proof.
  revert acc. induction l as [|y l IH]; intros acc; simpl.
  - by rewrite app_nil_r.
  - by rewrite IH, <- app_assoc.
Qed.

(** C7. A [RandomInjector] made by [NewRandomInjector] over one member or
    more, seeded by [SetRandSeed(s)] or left with the default seed, and [k]
    requests served one after the other by the handler of [Handler(d)]:
    the indices the injector selects are the first [k] draws of the
    generator made from the seed, for as many members. They depend on the
    seed, the number of members and [k], and on nothing else: not on the
    members, on [d], on the requests or on the rest of the world. Two runs
    with the same seed over the same members and as many requests select
    the same indices. (The injector is new: the world, the members and [d]
    hold no reference to its address before it is made.) *)
Theorem RandomInjector_selections_from_seed
    (seed : option Z) (injs : list Injector) d (rs : list Request) st0 fuel :
  let a := length (randoms st0) in
  apart_world a st0 →
  forallb (apart_injector a) injs →
  apart_handler a d →
  injs ≠ [] →
  let '((i, _), st1) := NewRandomInjector injs st0 in
  let st2 := match seed with
             | Some s => (RandomInjector_SetRandSeed i s st1).2
             | None => st1
             end in
  let '(h, st3) := RandomInjector_Handler i d st2 in
  i = Some a
  ∧ selections a (trace (serve_all (S fuel) h rs st3))
    = selections a (trace st0)
      ++ draws (rand_New (default defaultRandSeed seed))
           (Z.of_nat (length injs)) (length rs).
Proof.
  intros a Hst0 Hinjs Hd Hne. simpl. split; [done|].
  fold a.
  apply forallb_True in Hinjs.
  apply apart_world_Forall in Hst0 as (Hchains & Hrandoms & Hvars).
  set (c := mkRandomInjector injs None (Some (rand_New (default defaultRandSeed seed)))).
  set (st2 := match seed with Some s => _ | None => _ end).
  assert (randoms st2 !! a = Some c ∧ apart_world a st2 ∧ trace st2 = trace st0)
    as (Hc & Hst2 & Ht2).
  { unfold st2, c. rewrite foldl_snoc. simpl.
    destruct seed as [s|]; simpl.
    - unfold RandomInjector_SetRandSeed, store. simpl. fold a.
      rewrite (lookup_fresh (randoms st0)). simpl. fold a.
      split; [by rewrite list_lookup_alter_eq, (lookup_fresh (randoms st0))|].
      split; [|done].
      apply apart_world_Forall. simpl. repeat split; try done.
      apply Forall_alter; [|done]. apply Forall_app. split; [done|].
      by constructor.
    - split; [by rewrite (lookup_fresh (randoms st0))|]. split; [|done].
      apply apart_world_Forall. simpl. repeat split; try done.
      apply Forall_app. split; [done|]. by constructor. }
  rewrite (serve_all_draws a d fuel rs st2 c _ Hc eq_refl); try done.
  - by rewrite Ht2.
  - simpl. destruct injs; [done|simpl; lia].
Qed.

(** *** ChainInjector.Handler *)

Lemma nested_wrap_snoc ms m d st :
  nested_wrap (ms ++ [m]) d st =
    let '(h, st1) := Injector_Handler m d st in nested_wrap ms h st1.
Proof.
  revert d st. induction ms as [|m' ms IH]; intros d st; simpl.
  - by destruct (Injector_Handler m d st).
  - rewrite IH. by destruct (Injector_Handler m d st).
Qed.

Lemma Injector_Handler_vars m h st :
  length (vars st) ≤ length (vars (Injector_Handler m h st).2).
Proof. destruct m; simpl; rewrite ?length_app; lia. Qed.

(** Wrapping allocates new variables and does not read the old ones. *)
Lemma Injector_Handler_insert m h x y st :
  x < length (vars st) →
  Injector_Handler m h (with_vars (λ v, <[x := y]> v) st)
  = prod_map id (with_vars (λ v, <[x := y]> v)) (Injector_Handler m h st).
Proof.
  intros Hx. destruct m; try done.
  simpl. unfold ChainInjector_Handler, prod_map, with_vars. simpl.
  by rewrite length_insert, insert_app_l.
Qed.

Lemma nested_wrap_vars ms d st :
  length (vars st) ≤ length (vars (nested_wrap ms d st).2).
Proof.
  induction ms as [|m ms IH]; simpl; [done|].
  destruct (nested_wrap ms d st) as [h st1]. simpl in IH.
  etrans; [exact IH|apply Injector_Handler_vars].
Qed.

Lemma nested_wrap_insert ms d x y st :
  x < length (vars st) →
  nested_wrap ms d (with_vars (λ v, <[x := y]> v) st)
  = prod_map id (with_vars (λ v, <[x := y]> v)) (nested_wrap ms d st).
Proof.
  intros Hx. induction ms as [|m ms IH]; simpl; [done|].
  rewrite IH. pose proof (nested_wrap_vars ms d st) as Hlen.
  destruct (nested_wrap ms d st) as [h st1]. simpl in *.
  apply Injector_Handler_insert. lia.
Qed.

Lemma with_vars_insert_id x h st :
  vars st !! x = Some h → with_vars (λ v, <[x := h]> v) st = st.
Proof. intros Hx. destruct st. unfold with_vars. simpl in *. by rewrite list_insert_id. Qed.

Lemma with_vars_insert_insert x h h' st :
  with_vars (λ v, <[x := h']> v) (with_vars (λ v, <[x := h]> v) st)
  = with_vars (λ v, <[x := h']> v) st.
Proof. unfold with_vars. simpl. by rewrite list_insert_insert_eq. Qed.

(** The loop of the closure, over its first [n] indices, wraps these
    members around the value its variable [next] has when the loop starts,
    and leaves the result in [next]. *)
Lemma chain_loop_nested_wrap ms n x st cur :
  n ≤ length ms → vars st !! x = Some cur →
  chain_loop ms n x st =
    Some (let '(h, st1) := nested_wrap (take n ms) cur st in
          with_vars (λ v, <[x := h]> v) st1).
Proof.
  revert st cur. induction n as [|idx IH]; intros st cur Hn Hx.
  - simpl. by rewrite with_vars_insert_id.
  - destruct (lookup_lt_is_Some_2 ms idx) as [m Hm]; [lia|].
    simpl. rewrite Hm, Hx.
    rewrite (take_S_r _ _ _ Hm), nested_wrap_snoc.
    pose proof (Injector_Handler_vars m cur st) as Hlen.
    destruct (Injector_Handler m cur st) as [h st1]. simpl in Hlen.
    assert (x < length (vars st1)) as Hlt.
    { apply lookup_lt_Some in Hx. lia. }
    rewrite (IH _ h); [|lia|by apply list_lookup_insert_eq].
    rewrite nested_wrap_insert by done.
    destruct (nested_wrap (take idx ms) h st1) as [h' st2]. simpl.
    by rewrite with_vars_insert_insert.
Qed.

(** Every invocation of the chain closure wraps the members around what its
    variable [next] holds at that moment, keeps the result in [next], and
    calls it. *)
Lemma ChainFunc_wraps_current a c x cur r st fuel :
  chains st !! a = Some c → vars st !! x = Some cur →
  ServeHTTP (S fuel) (ChainFunc (Some a) x) r st =
    let '(h, st1) := nested_wrap (chain_middlewares c) cur st in
    ServeHTTP fuel h (updateRequestContextValue r ContextValueChainInjector)
      (with_vars (λ v, <[x := h]> v) st1).
Proof.
  intros Hc Hx. simpl. unfold ChainFunc_body. rewrite Hc.
  rewrite (chain_loop_nested_wrap _ _ _ _ cur) by done.
  rewrite firstn_all.
  pose proof (nested_wrap_vars (chain_middlewares c) cur st) as Hlen.
  destruct (nested_wrap (chain_middlewares c) cur st) as [h st1]. simpl in *.
  rewrite list_lookup_insert_eq; [done|].
  apply lookup_lt_Some in Hx. lia.
Qed.

(** X1. The first invocation of the handler of [ChainInjector.Handler(d)]
    is the call of the composition of the members around [d], member 0
    outermost, with the request tagged [ContextValueChainInjector]. *)
Lemma ChainInjector_Handler_first_invocation a c d r st fuel :
  chains st !! a = Some c →
  let '(h, st1) := ChainInjector_Handler (Some a) d st in
  ServeHTTP (S fuel) h r st1 =
    let '(hw, st2) := nested_wrap (chain_middlewares c) d st1 in
    ServeHTTP fuel hw (updateRequestContextValue r ContextValueChainInjector)
      (with_vars (λ v, <[length (vars st) := hw]> v) st2).
Proof.
  intros Hc. unfold ChainInjector_Handler.
  apply ChainFunc_wraps_current; [done|]. simpl. apply lookup_fresh.
Qed.

(** C1 (the code departs from it). A chain of one member, a
    [SlowInjector] of 10ms reporting to reporter 7, around the application
    handler 0, and the handler of [Handler] invoked twice. The first
    invocation runs the member once and then the application handler. The
    second invocation of the same handler runs the member twice before the
    application handler: the closure assigned the wrapped handler to its
    captured variable [next] on the first invocation, and wraps that one
    again on the second. *)
Theorem ChainInjector_Handler_second_invocation :
  let r1 := mkRequest 1 [] in
  let r2 := mkRequest 2 [] in
  let '((slow, _), st) := NewSlowInjector 10000000 empty_world in
  let '(_, st) := SlowInjector_SetReporter slow (Some 7) st in
  let '((chain, _), st) := NewChainInjector [ISlow slow] st in
  let '(h, st) := ChainInjector_Handler chain (AppHandler 0) st in
  let '(o1, st1) := ServeHTTP 3 h r1 st in
  let '(o2, st2) := ServeHTTP 4 h r2 st1 in
  vars st = [AppHandler 0]
  ∧ o1 = Returned
  ∧ trace st1 =
      [EvReport 7 "Slow Injector" StateStarted;
       EvSleep time_Sleep 10000000;
       EvReport 7 "Slow Injector" StateFinished;
       EvServe 0 (mkRequest 1 [ContextValueChainInjector; ContextValueSlowInjector])]
  ∧ vars st1 = [SlowFunc slow (AppHandler 0)]
  ∧ o2 = Returned
  ∧ trace st2 = trace st1 ++
      [EvReport 7 "Slow Injector" StateStarted;
       EvSleep time_Sleep 10000000;
       EvReport 7 "Slow Injector" StateFinished;
       EvReport 7 "Slow Injector" StateStarted;
       EvSleep time_Sleep 10000000;
       EvReport 7 "Slow Injector" StateFinished;
       EvServe 0 (mkRequest 2 [ContextValueChainInjector; ContextValueSlowInjector;
                               ContextValueSlowInjector])]
  ∧ vars st2 = [SlowFunc slow (SlowFunc slow (AppHandler 0))].
Proof. vm_compute. repeat split. Qed.

(** *** Further properties of the chain *)

Lemma Injector_Handler_heaps m h st :
  let st1 := (Injector_Handler m h st).2 in
  chains st1 = chains st ∧ randoms st1 = randoms st ∧ rejects st1 = rejects st
  ∧ errors st1 = errors st ∧ slows st1 = slows st ∧ trace st1 = trace st.
Proof. by destruct m. Qed.

(** Wrapping changes the closure variables only. *)
Lemma nested_wrap_heaps ms d st :
  let st1 := (nested_wrap ms d st).2 in
  chains st1 = chains st ∧ randoms st1 = randoms st ∧ rejects st1 = rejects st
  ∧ errors st1 = errors st ∧ slows st1 = slows st ∧ trace st1 = trace st.
Proof.
  induction ms as [|m ms IH]; simpl; [done|].
  destruct (nested_wrap ms d st) as [h st1]. simpl in IH.
  pose proof (Injector_Handler_heaps m h st1) as Hm.
  destruct (Injector_Handler m h st1) as [h' st2]. simpl in *.
  destruct IH as (? & ? & ? & ? & ? & ?), Hm as (? & ? & ? & ? & ? & ?).
  repeat split; congruence.
Qed.

(** X3. A chain whose member 0 is an [ErrorInjector] with a code of the
    table: every invocation of its handler, whatever its variable [next]
    holds by then and whatever the later members are, makes the Started
    report of that injector, calls [http.Error] with its text and code, and
    returns: the trace gets these events and no other. *)
Theorem ChainInjector_Handler_error_first a c e ce ms x cur r st fuel :
  chains st !! a = Some c →
  chain_middlewares c = IError (Some e) :: ms →
  errors st !! e = Some ce →
  http_StatusText (statusCode ce) ≠ "" →
  vars st !! x = Some cur →
  let res := ServeHTTP (S (S fuel)) (ChainFunc (Some a) x) r st in
  res.1 = Returned
  ∧ trace res.2
    = trace st ++ reportWithMessage (error_reporter ce) "Error Injector" StateStarted
      ++ [EvError (statusText ce) (statusCode ce)].
Proof.
  intros Hc Hms He Htext Hx res. subst res.
  rewrite (ChainFunc_wraps_current a c x cur) by done.
  rewrite Hms. cbn [nested_wrap].
  pose proof (nested_wrap_heaps ms cur st) as (_ & _ & _ & Herr & _ & Htr).
  destruct (nested_wrap ms cur st) as [h st1]. simpl in Herr, Htr.
  cbn [Injector_Handler ErrorInjector_Handler].
  rewrite (ErrorFunc_writes e ce); [|by simpl; rewrite Herr|done].
  split; [done|]. simpl. by rewrite Htr.
Qed.

(** X4. A chain whose member 0 is a [RejectInjector]: every invocation of
    its handler makes the Started report of that injector and panics with
    [http.ErrAbortHandler], whatever [next] holds and whatever the later
    members are; the trace gets that report and nothing else. *)
Theorem ChainInjector_Handler_reject_first a c j cj ms x cur r st fuel :
  chains st !! a = Some c →
  chain_middlewares c = IReject (Some j) :: ms →
  rejects st !! j = Some cj →
  vars st !! x = Some cur →
  let res := ServeHTTP (S (S fuel)) (ChainFunc (Some a) x) r st in
  res.1 = Panicked ErrAbortHandler
  ∧ trace res.2
    = trace st ++ reportWithMessage (reject_reporter cj) "Reject Injector" StateStarted.
Proof.
  intros Hc Hms Hj Hx res. subst res.
  rewrite (ChainFunc_wraps_current a c x cur) by done.
  rewrite Hms. cbn [nested_wrap].
  pose proof (nested_wrap_heaps ms cur st) as (_ & _ & Hrej & _ & _ & Htr).
  destruct (nested_wrap ms cur st) as [h st1]. simpl in Hrej, Htr.
  cbn [Injector_Handler RejectInjector_Handler ServeHTTP].
  unfold RejectFunc_body. simpl. rewrite Hrej, Hj. simpl. by rewrite Htr.
Qed.

(** X5. [NewChainInjector()] with no injector returns a chain whose handler
    is the call of [d] with the request tagged [ContextValueChainInjector],
    in a world it leaves as it is: so it is on the first invocation and on
    every later one, as long as the struct has no member and the variable
    [next] holds [d]. *)
Theorem NewChainInjector_empty_passes d r st fuel :
  let '((i, err), st1) := NewChainInjector [] st in
  let '(h, st2) := ChainInjector_Handler i d st1 in
  err = None
  ∧ ServeHTTP (S fuel) h r st2
    = ServeHTTP fuel d (updateRequestContextValue r ContextValueChainInjector) st2
  ∧ ∀ c st',
      chains st' !! length (chains st) = Some c → chain_middlewares c = [] →
      vars st' !! length (vars st) = Some d →
      ServeHTTP (S fuel) h r st'
      = ServeHTTP fuel d (updateRequestContextValue r ContextValueChainInjector) st'.
Proof.
  cbn [NewChainInjector ChainInjector_Handler foldl].
  assert (∀ c st', chains st' !! length (chains st) = Some c →
            chain_middlewares c = [] →
            vars st' !! length (vars st) = Some d →
            ServeHTTP (S fuel) (ChainFunc (Some (length (chains st))) (length (vars st))) r st'
            = ServeHTTP fuel d (updateRequestContextValue r ContextValueChainInjector) st')
    as Hpass.
  { intros c st' Hc Hms Hx.
    rewrite (ChainFunc_wraps_current _ c _ d) by done.
    rewrite Hms. cbn [nested_wrap]. by rewrite with_vars_insert_id. }
  split; [done|]. split; [|exact Hpass].
  apply (Hpass (mkChainInjector [] None)); simpl; [|done|]; apply lookup_fresh.
Qed.


(** *** What serving a request leaves as it is *)

Lemma served_from_refl st : served_from st st.
Proof. repeat split; try done. exists []. by rewrite app_nil_r. Qed.

Lemma served_from_trans st1 st2 st3 :
  served_from st1 st2 → served_from st2 st3 → served_from st1 st3.
Proof.
  intros (Hc & Hj & He & Hs & Hr & Hv & es & Ht) (Hc' & Hj' & He' & Hs' & Hr' & Hv' & es' & Ht').
  repeat split; try congruence; try lia.
  exists (es ++ es'). by rewrite Ht', Ht, app_assoc.
Qed.

Lemma served_from_emit es st : served_from st (emit es st).
Proof. repeat split; try done. by exists es. Qed.

Lemma served_from_insert x h st : served_from st (with_vars (λ v, <[x := h]> v) st).
Proof.
  repeat split; try done; simpl.
  - by rewrite length_insert.
  - exists []. by rewrite app_nil_r.
Qed.

Lemma served_from_advance (g : Rand) a st :
  served_from st (with_randoms (alter (advance g) a) st).
Proof.
  repeat split; try done; simpl.
  - apply list_eq. intros b. rewrite !list_lookup_fmap, list_lookup_alter.
    case_decide as Hab; [|done]. destruct Hab. by destruct (randoms st !! a).
  - exists []. by rewrite app_nil_r.
Qed.

Lemma served_from_Injector_Handler m h st : served_from st (Injector_Handler m h st).2.
Proof.
  destruct m; try apply served_from_refl.
  repeat split; try done; simpl.
  - rewrite length_app. lia.
  - exists []. by rewrite app_nil_r.
Qed.

Lemma served_from_chain_loop ms n x st st1 :
  chain_loop ms n x st = Some st1 → served_from st st1.
Proof.
  revert st. induction n as [|idx IH]; intros st Hloop; simpl in Hloop.
  - injection Hloop as <-. apply served_from_refl.
  - destruct (ms !! idx) as [m|]; [|done].
    destruct (vars st !! x) as [next|]; [|done].
    pose proof (served_from_Injector_Handler m next st) as Hm.
    destruct (Injector_Handler m next st) as [h st2]. simpl in Hm.
    apply IH in Hloop.
    eapply served_from_trans; [exact Hm|].
    eapply served_from_trans; [apply served_from_insert|exact Hloop].
Qed.

(** X7. Serving a request, with any handler built from the injectors of
    the file, never changes the configuration: every chain, reject, error
    and slow struct is as before, every random injector has the members and
    the reporter it had (its generator alone may have advanced), no closure
    variable is lost, and the trace is the former trace with events added
    at its end. *)
Theorem ServeHTTP_keeps_configuration fuel h r st :
  served_from st (ServeHTTP fuel h r st).2.
Proof.
  revert h r st. induction fuel as [|fuel IH]; intros h r st;
    [apply served_from_refl|].
  destruct h as [id|i x|i next|i next|i next|i next]; simpl.
  - apply served_from_emit.
  - unfold ChainFunc_body. destruct i as [a|].
    + destruct (chains st !! a) as [c|]; [|apply served_from_refl].
      destruct (chain_loop _ _ x st) as [st1|] eqn:Hloop; [|apply served_from_refl].
      apply served_from_chain_loop in Hloop.
      destruct (vars st1 !! x) as [next|]; [|done].
      eapply served_from_trans; [exact Hloop|apply IH].
    + destruct (vars st !! x); [apply IH|apply served_from_refl].
  - unfold RandomFunc_body. destruct i as [a|]; [|apply IH].
    destruct (randoms st !! a) as [c|]; [|apply served_from_refl].
    destruct (0 <? _); [|apply IH].
    destruct (rand c) as [g|]; [|apply served_from_refl].
    destruct (Intn g _) as [k g'].
    set (st1 := emit _ _).
    assert (served_from st st1) as Hst1.
    { eapply served_from_trans; [apply (served_from_advance g' a)|apply served_from_emit]. }
    destruct (index _ k) as [m|]; [|done].
    pose proof (served_from_Injector_Handler m next st1) as Hm.
    destruct (Injector_Handler m next st1) as [h' st2]. simpl in Hm.
    eapply served_from_trans; [exact Hst1|].
    eapply served_from_trans; [exact Hm|apply IH].
  - unfold RejectFunc_body. destruct i as [a|]; [|apply served_from_refl].
    destruct (rejects st !! a); [apply served_from_emit|apply served_from_refl].
  - unfold ErrorFunc_body. destruct i as [a|]; [|apply IH].
    destruct (errors st !! a) as [c|]; [|apply served_from_refl].
    destruct (negb _).
    + eapply served_from_trans; apply served_from_emit.
    + eapply served_from_trans; [apply served_from_emit|apply IH].
  - unfold SlowFunc_body. destruct i as [a|]; [|apply IH].
    destruct (slows st !! a) as [c|]; [|apply served_from_refl].
    destruct (sleep c); [|apply IH].
    eapply served_from_trans; [apply served_from_emit|].
    eapply served_from_trans; [apply served_from_emit|].
    eapply served_from_trans; [apply served_from_emit|apply IH].
Qed.

(** *** Further properties of the random injector *)

(** X11. Random injectors do not share their generators: requests served
    by a handler that is no closure of the random injector at [a], in a
    world that holds no reference to it, leave the generator of that
    injector where it was and add no selection of it to the trace, however
    many they are and however they end. *)
Theorem serve_all_leaves_other_generators a fuel h (rs : list Request) st :
  apart_handler a h → apart_world a st →
  randoms (serve_all fuel h rs st) !! a = randoms st !! a
  ∧ selections a (trace (serve_all fuel h rs st)) = selections a (trace st).
Proof.
  intros Hh. revert st. induction rs as [|r rs IH]; intros st Hst; [done|].
  cbn [serve_all].
  destruct (ServeHTTP_apart a fuel h r st Hh Hst) as (Hst1 & Hr1 & Ht1).
  destruct (IH _ Hst1) as [Hr Ht]. split; congruence.
Qed.

(** X8. [SetRandSeed(s)] starts the selections afresh, whenever it is
    called: on a random injector with one member or more it returns, and
    the indices selected by the requests served after it are the first
    draws of the generator made from [s], whatever was drawn before. *)
Theorem SetRandSeed_restarts a c (s : Z) d (rs : list Request) st fuel :
  randoms st !! a = Some c →
  0 < length (random_middlewares c) →
  apart_handler a d → apart_world a st →
  let res := RandomInjector_SetRandSeed (Some a) s st in
  res.1 = Returned
  ∧ selections a (trace (serve_all (S fuel) (RandomFunc (Some a) d) rs res.2))
    = selections a (trace st)
      ++ draws (rand_New s) (Z.of_nat (length (random_middlewares c))) (length rs).
Proof.
  intros Hc Hlen Hd Hst res. subst res.
  unfold RandomInjector_SetRandSeed, store. rewrite Hc. split; [done|].
  cbn [snd].
  set (c' := mkRandomInjector (random_middlewares c) (random_reporter c) (Some (rand_New s))).
  rewrite (serve_all_draws a d fuel rs _ c' (rand_New s)); try done.
  - simpl. by rewrite list_lookup_alter_eq, Hc.
  - apply apart_world_Forall in Hst as (Hchains & Hrandoms & Hvars).
    apply apart_world_Forall. simpl. repeat split; try done.
    apply Forall_alter; [done|]. by intros c0 Hc0 Hp.
Qed.

(** X10. A random injector over exactly one injector always selects it
    (the generator drawing in range): every invocation draws index 0 and is
    the call of the handler that member wraps around [d]. *)
Theorem RandomInjector_single_member a c m g d r st fuel :
  Intn_in_range →
  randoms st !! a = Some c → random_middlewares c = [m] → rand c = Some g →
  ServeHTTP (S fuel) (RandomFunc (Some a) d) r st =
    let st1 := emit [EvIntn a 1 0] (with_randoms (alter (advance (Intn g 1).2) a) st) in
    let '(h', st2) := Injector_Handler m d st1 in
    ServeHTTP fuel h' (updateRequestContextValue r ContextValueRandomInjector) st2.
Proof.
  intros Hrange Hc Hms Hg. simpl. unfold RandomFunc_body.
  rewrite Hc, Hms, Hg. simpl. change (Z.of_nat 1) with 1%Z.
  specialize (Hrange g 1%Z). destruct (Intn g 1) as [k g']. simpl in *.
  assert (k = 0%Z) as -> by lia. done.
Qed.

(** *** SetReporter of the reject, error and slow injectors *)

Lemma with_rejects_alter_alter (f g : RejectInjector → RejectInjector) a st :
  (∀ y, f (g y) = f y) →
  with_rejects (alter f a) (with_rejects (alter g a) st) = with_rejects (alter f a) st.
Proof.
  intros Hfg. unfold with_rejects. simpl. f_equal.
  rewrite list_alter_alter_eq. apply list_alter_ext; [|done]. intros y _. apply Hfg.
Qed.

Lemma with_errors_alter_alter (f g : ErrorInjector → ErrorInjector) a st :
  (∀ y, f (g y) = f y) →
  with_errors (alter f a) (with_errors (alter g a) st) = with_errors (alter f a) st.
Proof.
  intros Hfg. unfold with_errors. simpl. f_equal.
  rewrite list_alter_alter_eq. apply list_alter_ext; [|done]. intros y _. apply Hfg.
Qed.

Lemma with_slows_alter_alter (f g : SlowInjector → SlowInjector) a st :
  (∀ y, f (g y) = f y) →
  with_slows (alter f a) (with_slows (alter g a) st) = with_slows (alter f a) st.
Proof.
  intros Hfg. unfold with_slows. simpl. f_equal.
  rewrite list_alter_alter_eq. apply list_alter_ext; [|done]. intros y _. apply Hfg.
Qed.

Lemma RejectInjector_SetReporter_valid a (c : RejectInjector) rep st :
  rejects st !! a = Some c →
  RejectInjector_SetReporter (Some a) rep st
  = (Returned, with_rejects (alter (λ _, mkRejectInjector rep) a) st).
Proof. intros Hc. unfold RejectInjector_SetReporter, store. by rewrite Hc. Qed.

Lemma ErrorInjector_SetReporter_valid a (c : ErrorInjector) rep st :
  errors st !! a = Some c →
  ErrorInjector_SetReporter (Some a) rep st
  = (Returned,
     with_errors (alter (λ y, mkErrorInjector (statusCode y) (statusText y) rep) a) st).
Proof. intros Hc. unfold ErrorInjector_SetReporter, store. by rewrite Hc. Qed.

Lemma SlowInjector_SetReporter_valid a (c : SlowInjector) rep st :
  slows st !! a = Some c →
  SlowInjector_SetReporter (Some a) rep st
  = (Returned,
     with_slows (alter (λ y, mkSlowInjector (duration y) rep (sleep y)) a) st).
Proof. intros Hc. unfold SlowInjector_SetReporter, store. by rewrite Hc. Qed.

(** X9. [SetReporter] of a reject, an error and a slow injector replaces
    the reporter: after [SetReporter(r1)] and then [SetReporter(r2)] the
    world is what [SetReporter(r2)] alone makes it, and the handler of the
    injector reports to [r2] (to nobody when [r2] is nil) and does the rest
    as before: the reject handler panics with [http.ErrAbortHandler], the
    error handler writes its code and text, the slow handler sleeps its
    duration between the two reports and calls [d]. *)
Theorem SetReporter_last_wins (rep1 rep2 : option Reporter) d r st fuel :
  (∀ a c, rejects st !! a = Some c →
     let st1 := (RejectInjector_SetReporter (Some a) rep1 st).2 in
     let res := RejectInjector_SetReporter (Some a) rep2 st1 in
     res = RejectInjector_SetReporter (Some a) rep2 st
     ∧ res.1 = Returned
     ∧ ServeHTTP (S fuel) (RejectFunc (Some a) d) r res.2
       = (Panicked ErrAbortHandler,
          emit (reportWithMessage rep2 "Reject Injector" StateStarted) res.2))
  ∧ (∀ a c, errors st !! a = Some c → http_StatusText (statusCode c) ≠ "" →
     let st1 := (ErrorInjector_SetReporter (Some a) rep1 st).2 in
     let res := ErrorInjector_SetReporter (Some a) rep2 st1 in
     res = ErrorInjector_SetReporter (Some a) rep2 st
     ∧ res.1 = Returned
     ∧ ServeHTTP (S fuel) (ErrorFunc (Some a) d) r res.2
       = (Returned,
          emit (reportWithMessage rep2 "Error Injector" StateStarted
                ++ [EvError (statusText c) (statusCode c)]) res.2))
  ∧ (∀ a c f, slows st !! a = Some c → sleep c = Some f →
     let st1 := (SlowInjector_SetReporter (Some a) rep1 st).2 in
     let res := SlowInjector_SetReporter (Some a) rep2 st1 in
     res = SlowInjector_SetReporter (Some a) rep2 st
     ∧ res.1 = Returned
     ∧ ServeHTTP (S fuel) (SlowFunc (Some a) d) r res.2
       = ServeHTTP fuel d (updateRequestContextValue r ContextValueSlowInjector)
           (emit (reportWithMessage rep2 "Slow Injector" StateStarted
                  ++ [EvSleep f (duration c)]
                  ++ reportWithMessage rep2 "Slow Injector" StateFinished) res.2)).
Proof.
  split; [|split].
  - intros a c Hc st1 res. subst res st1.
    rewrite (RejectInjector_SetReporter_valid a c rep1 st Hc). cbn [snd].
    rewrite (RejectInjector_SetReporter_valid a (mkRejectInjector rep1) rep2);
      [|by simpl; rewrite list_lookup_alter_eq, Hc].
    rewrite (RejectInjector_SetReporter_valid a c rep2 st Hc).
    rewrite with_rejects_alter_alter by done.
    split; [done|]. split; [done|]. cbn [snd ServeHTTP].
    unfold RejectFunc_body. simpl. by rewrite list_lookup_alter_eq, Hc.
  - intros a c Hc Htext st1 res. subst res st1.
    rewrite (ErrorInjector_SetReporter_valid a c rep1 st Hc). cbn [snd].
    rewrite (ErrorInjector_SetReporter_valid a
               (mkErrorInjector (statusCode c) (statusText c) rep1) rep2);
      [|by simpl; rewrite list_lookup_alter_eq, Hc].
    rewrite (ErrorInjector_SetReporter_valid a c rep2 st Hc).
    rewrite with_errors_alter_alter by done.
    split; [done|]. split; [done|]. cbn [snd].
    apply (ErrorFunc_writes a (mkErrorInjector (statusCode c) (statusText c) rep2));
      [|done].
    simpl. by rewrite list_lookup_alter_eq, Hc.
  - intros a c f Hc Hf st1 res. subst res st1.
    rewrite (SlowInjector_SetReporter_valid a c rep1 st Hc). cbn [snd].
    rewrite (SlowInjector_SetReporter_valid a
               (mkSlowInjector (duration c) rep1 (sleep c)) rep2);
      [|by simpl; rewrite list_lookup_alter_eq, Hc].
    rewrite (SlowInjector_SetReporter_valid a c rep2 st Hc).
    rewrite with_slows_alter_alter by done.
    split; [done|]. split; [done|]. cbn [snd ServeHTTP].
    unfold SlowFunc_body. simpl. rewrite list_lookup_alter_eq, Hc. simpl.
    rewrite Hf. by rewrite !emit_emit.
Qed.

(** *** The chain handler over its invocations *)

Lemma sleep_count_app tr1 tr2 : sleep_count (tr1 ++ tr2) = sleep_count tr1 + sleep_count tr2.
Proof. unfold sleep_count. by rewrite List.filter_app, length_app. Qed.

Lemma sleep_count_report rep name s : sleep_count (reportWithMessage rep name s) = 0.
Proof. by destruct rep. Qed.

(** A slow handler wrapped [k] times around an application handler sleeps
    [k] times and returns. *)
Lemma slow_tower_serves a c f id (k : nat) fuel r st :
  slows st !! a = Some c → sleep c = Some f → k < fuel →
  ∃ es,
    ServeHTTP fuel (Nat.iter k (SlowFunc (Some a)) (AppHandler id)) r st
    = (Returned, emit es st)
    ∧ sleep_count es = k.
Proof.
  intros Hc Hf. revert fuel r st Hc.
  induction k as [|k IH]; intros fuel r st Hc Hk;
    (destruct fuel as [|fuel]; [lia|]).
  - by exists [EvServe id r].
  - rewrite Nat.iter_succ. cbn [ServeHTTP]. unfold SlowFunc_body. rewrite Hc, Hf.
    rewrite !emit_emit.
    set (es1 := _ ++ _ ++ _).
    destruct (IH fuel (updateRequestContextValue r ContextValueSlowInjector) (emit es1 st))
      as (es & Hrun & Hcount); [done|lia|].
    exists (es1 ++ es). rewrite Hrun, emit_emit. split; [done|].
    unfold es1. by rewrite !sleep_count_app, !sleep_count_report, Hcount.
Qed.

Lemma chain_slow_step a c s cs f id x (k : nat) r st fuel :
  chains st !! a = Some c → chain_middlewares c = [ISlow (Some s)] →
  slows st !! s = Some cs → sleep cs = Some f →
  vars st !! x = Some (Nat.iter k (SlowFunc (Some s)) (AppHandler id)) →
  k + 3 ≤ fuel →
  ∃ es,
    ServeHTTP fuel (ChainFunc (Some a) x) r st
    = (Returned,
       emit es (with_vars (λ v, <[x := Nat.iter (S k) (SlowFunc (Some s)) (AppHandler id)]> v) st))
    ∧ sleep_count es = S k.
Proof.
  intros Hc Hms Hs Hf Hx Hfuel.
  destruct fuel as [|fuel]; [lia|].
  rewrite (ChainFunc_wraps_current a c x _ r st fuel Hc Hx).
  rewrite Hms. cbn [nested_wrap Injector_Handler SlowInjector_Handler].
  apply (slow_tower_serves s cs f id (S k)); [done|done|lia].
Qed.

Lemma chain_slow_grows a c s cs f id x (rs : list Request) :
  ∀ (k : nat) st fuel,
    chains st !! a = Some c → chain_middlewares c = [ISlow (Some s)] →
    slows st !! s = Some cs → sleep cs = Some f →
    vars st !! x = Some (Nat.iter k (SlowFunc (Some s)) (AppHandler id)) →
    k + length rs + 2 ≤ fuel →
    let st' := serve_all fuel (ChainFunc (Some a) x) rs st in
    vars st' !! x = Some (Nat.iter (k + length rs) (SlowFunc (Some s)) (AppHandler id))
    ∧ 2 * sleep_count (trace st')
      = 2 * sleep_count (trace st) + length rs * (2 * k + length rs + 1).
Proof.
  induction rs as [|r rs IH]; intros k st fuel Hc Hms Hs Hf Hx Hfuel.
  - simpl. rewrite Nat.add_0_r. split; [done|lia].
  - cbn [serve_all length] in *.
    destruct (chain_slow_step a c s cs f id x k r st fuel) as (es & Hrun & Hcount);
      try done; [lia|].
    rewrite Hrun. cbn [snd].
    set (st1 := emit es _).
    destruct (IH (S k) st1 fuel) as [Hvar Htrace]; try done.
    { simpl. apply list_lookup_insert_eq. by eapply lookup_lt_Some. }
    { lia. }
    split.
    + rewrite Hvar. f_equal. f_equal. lia.
    + rewrite Htrace. unfold st1. simpl. rewrite sleep_count_app, Hcount. nia.
Qed.

(** X2. A chain of one slow injector around an application handler: after
    the same handler has served [n] requests its variable [next] holds the
    slow handler wrapped [n] times around the application handler, and the
    sleep function has been called [n (n + 1) / 2] times in all: once for
    the first request, twice for the second, and so on. *)
Theorem ChainInjector_Handler_delays_grow a c s cs f id x (rs : list Request) st fuel :
  chains st !! a = Some c → chain_middlewares c = [ISlow (Some s)] →
  slows st !! s = Some cs → sleep cs = Some f →
  vars st !! x = Some (AppHandler id) →
  length rs + 2 ≤ fuel →
  let st' := serve_all fuel (ChainFunc (Some a) x) rs st in
  vars st' !! x = Some (Nat.iter (length rs) (SlowFunc (Some s)) (AppHandler id))
  ∧ 2 * sleep_count (trace st')
    = 2 * sleep_count (trace st) + length rs * (length rs + 1).
Proof.
  intros Hc Hms Hs Hf Hx Hfuel.
  intros st'.
  destruct (chain_slow_grows a c s cs f id x rs 0 st fuel Hc Hms Hs Hf Hx Hfuel)
    as [Hvar Htrace].
  split; [exact Hvar|]. fold st' in Htrace. rewrite Htrace. lia.
Qed.

(** *** Injectors as their constructors make them *)

(** X12. [NewRejectInjector] and [NewSlowInjector] never fail, and the
    injectors they return work at once, with no reporter set: the handler
    of the reject injector panics with [http.ErrAbortHandler] and leaves
    the world as it is; the handler of the slow injector is never in
    its skipped mode: it calls [time.Sleep] with the duration given to the
    constructor, reports nothing, and calls [d] with the request tagged
    [ContextValueSlowInjector]. *)
Theorem New_leaf_injectors_ready (dur : Duration) d r st fuel :
  (let '((i, err), st1) := NewRejectInjector st in
   let '(h, st2) := RejectInjector_Handler i d st1 in
   i = Some (length (rejects st)) ∧ err = None
   ∧ ServeHTTP (S fuel) h r st2 = (Panicked ErrAbortHandler, st2))
  ∧ (let '((i, err), st1) := NewSlowInjector dur st in
     let '(h, st2) := SlowInjector_Handler i d st1 in
     i = Some (length (slows st)) ∧ err = None
     ∧ ServeHTTP (S fuel) h r st2
       = ServeHTTP fuel d (updateRequestContextValue r ContextValueSlowInjector)
           (emit [EvSleep time_Sleep dur] st2)).
Proof.
  split.
  - cbn [NewRejectInjector RejectInjector_Handler ServeHTTP].
    split; [done|]. split; [done|].
    unfold RejectFunc_body. cbn [rejects with_rejects].
    rewrite lookup_fresh. cbn [reject_reporter reportWithMessage].
    by rewrite emit_nil.
  - cbn [NewSlowInjector SlowInjector_Handler ServeHTTP].
    split; [done|]. split; [done|].
    unfold SlowFunc_body. cbn [slows with_slows].
    rewrite lookup_fresh. cbn [sleep slow_reporter duration reportWithMessage].
    by rewrite !emit_emit.
Qed.

(** *** The requests the application handlers get *)

Lemma tagged_from_refl r : tagged_from r r.
Proof. by exists []. Qed.

Lemma tagged_from_step r r' v :
  tagged_from (updateRequestContextValue r v) r' → tagged_from r r'.
Proof. intros [tags ->]. by exists (v :: tags). Qed.

Lemma serves_only_step r v es :
  serves_only (updateRequestContextValue r v) es → serves_only r es.
Proof.
  intros Hes. eapply Forall_impl; [exact Hes|].
  intros [] H; try done. by eapply tagged_from_step.
Qed.

Lemma serves_only_report r rep name s : serves_only r (reportWithMessage rep name s).
Proof. destruct rep; repeat constructor. Qed.

Lemma chain_loop_trace ms n x st st1 :
  chain_loop ms n x st = Some st1 → trace st1 = trace st.
Proof.
  revert st. induction n as [|idx IH]; intros st Hloop; simpl in Hloop.
  - by injection Hloop as <-.
  - destruct (ms !! idx) as [m|]; [|done].
    destruct (vars st !! x) as [next|]; [|done].
    pose proof (Injector_Handler_heaps m next st) as (_ & _ & _ & _ & _ & Ht).
    destruct (Injector_Handler m next st) as [h st2]. simpl in Ht.
    apply IH in Hloop. by rewrite Hloop.
Qed.

(** X13. The handlers pass on the request they are given, tagged, and no
    other: every call of an application handler made while a handler of the
    file serves [r] is made with [r] after some calls of
    [updateRequestContextValue], however deep the handlers are nested; and
    the trace before the request is kept. *)
Theorem ServeHTTP_serves_only_its_request fuel h r st :
  ∃ es, trace (ServeHTTP fuel h r st).2 = trace st ++ es ∧ serves_only r es.
Proof.
  revert h r st. induction fuel as [|fuel IH]; intros h r st.
  { exists []. split; [by rewrite app_nil_r|constructor]. }
  assert (∀ es0 r0 st0 h0,
            trace st0 = trace st ++ es0 → serves_only r es0 → tagged_from r r0 →
            ∃ es, trace (ServeHTTP fuel h0 r0 st0).2 = trace st ++ es ∧ serves_only r es)
    as Hnext.
  { intros es0 r0 st0 h0 Ht Hes0 [tags ->].
    destruct (IH h0 (foldl updateRequestContextValue r tags) st0) as (es & Hes & Hserves).
    exists (es0 ++ es). split; [by rewrite Hes, Ht, app_assoc|].
    apply Forall_app. split; [done|].
    eapply Forall_impl; [exact Hserves|]. intros [] H; try done.
    destruct H as [tags' ->]. exists (tags ++ tags'). by rewrite foldl_app. }
  assert (∀ st0, trace st0 = trace st →
            ∃ es, trace st0 = trace st ++ es ∧ serves_only r es) as Hstop.
  { intros st0 Ht. exists []. split; [by rewrite app_nil_r|constructor]. }
  destruct h as [id|i x|i next|i next|i next|i next]; simpl.
  - exists [EvServe id r]. split; [done|].
    constructor; [apply tagged_from_refl|constructor].
  - unfold ChainFunc_body. destruct i as [a|].
    + destruct (chains st !! a) as [c|]; [|by apply Hstop].
      destruct (chain_loop _ _ x st) as [st1|] eqn:Hloop; [|by apply Hstop].
      apply chain_loop_trace in Hloop.
      destruct (vars st1 !! x) as [next|]; [|by apply Hstop].
      apply (Hnext []); [by rewrite app_nil_r|constructor|].
      eapply tagged_from_step, tagged_from_refl.
    + destruct (vars st !! x) as [next|]; [|by apply Hstop].
      apply (Hnext []); [by rewrite app_nil_r|constructor|apply tagged_from_refl].
  - unfold RandomFunc_body.
    destruct i as [a|];
      [|apply (Hnext []); [by rewrite app_nil_r|constructor|apply tagged_from_refl]].
    destruct (randoms st !! a) as [c|]; [|by apply Hstop].
    destruct (0 <? _);
      [|apply (Hnext []); [by rewrite app_nil_r|constructor|apply tagged_from_refl]].
    destruct (rand c) as [g|]; [|by apply Hstop].
    destruct (Intn g _) as [k g'].
    set (e := EvIntn a _ k). set (st1 := emit [e] _).
    destruct (index _ k) as [m|].
    + pose proof (Injector_Handler_heaps m next st1) as (_ & _ & _ & _ & _ & Ht).
      destruct (Injector_Handler m next st1) as [h' st2]. simpl in Ht.
      apply (Hnext [e]); [by rewrite Ht|by repeat constructor|].
      eapply tagged_from_step, tagged_from_refl.
    + exists [e]. split; [done|by repeat constructor].
  - unfold RejectFunc_body. destruct i as [a|]; [|by apply Hstop].
    destruct (rejects st !! a) as [c|]; [|by apply Hstop].
    eexists. split; [done|apply serves_only_report].
  - unfold ErrorFunc_body.
    destruct i as [a|];
      [|apply (Hnext []); [by rewrite app_nil_r|constructor|apply tagged_from_refl]].
    destruct (errors st !! a) as [c|]; [|by apply Hstop].
    destruct (negb _).
    + eexists. split; [simpl; by rewrite <- app_assoc|].
      apply Forall_app. split; [apply serves_only_report|by repeat constructor].
    + apply (Hnext (reportWithMessage (error_reporter c) ErrorInjector_Name StateStarted));
        [done|apply serves_only_report|apply tagged_from_refl].
  - unfold SlowFunc_body.
    destruct i as [a|];
      [|apply (Hnext []); [by rewrite app_nil_r|constructor|];
        eapply tagged_from_step, tagged_from_refl].
    destruct (slows st !! a) as [c|]; [|by apply Hstop].
    destruct (sleep c) as [f|].
    + eapply Hnext; [simpl; by rewrite <- !app_assoc| |
                     eapply tagged_from_step, tagged_from_refl].
      apply Forall_app. split; [apply serves_only_report|].
      apply Forall_app. split; [by repeat constructor|apply serves_only_report].
    + apply (Hnext []); [by rewrite app_nil_r|constructor|].
      eapply tagged_from_step, tagged_from_refl.
Qed.

End Fault.

(** ** The theorems at concrete inputs *)

Lemma lcg_Intn_in_range : Intn_in_range lcg_Intn.
Proof.
  intros g n Hn. unfold lcg_Intn. simpl. apply Z.mod_pos_bound. lia.
Qed.

(** 404 has a text in the table of Go and 600 has none. *)
Lemma NewErrorInjector_table_witness :
  (∃ a st',
     NewErrorInjector go_StatusText 404 (@empty_world Z) = ((Some a, None), st')
     ∧ errors (@empty_world Z) !! a = None
     ∧ st' = with_errors (λ l, l ++ [mkErrorInjector 404 "Not Found" None]) empty_world
     ∧ (statusText <$> errors st' !! a) = Some "Not Found"
     ∧ (statusCode <$> errors st' !! a) = Some 404%Z)
  ∧ NewErrorInjector go_StatusText 600 (@empty_world Z)
    = ((None, Some ErrInvalidHTTPCode), empty_world).
Proof.
  split.
  - apply (NewErrorInjector_table go_StatusText 404 (@empty_world Z)). discriminate.
  - apply (NewErrorInjector_table go_StatusText 600 (@empty_world Z)). reflexivity.
Defined.

(** The handler of a nil [*RejectInjector]: the invocation panics and no
    Started report is made, where C4 has exactly one. *)
Lemma RejectInjector_nil_receiver_reports_nothing :
  let h := (RejectInjector_Handler None (AppHandler 0) (@empty_world Z)).1 in
  let res := ServeHTTP go_StatusText lcg_Intn 1 h (mkRequest 1 []) empty_world in
  res = (Panicked ErrAbortHandler, empty_world)
  ∧ report_count StateStarted (trace res.2) ≠ 1.
Proof. split; [reflexivity|discriminate]. Qed.

(** A [RejectInjector] with reporter 7. *)
Lemma RejectInjector_Handler_aborts_witness :
  let st := mkWorld [] ([] : list (@RandomInjector Z)) [mkRejectInjector (Some 7)] [] [] [] [] in
  let h := (RejectInjector_Handler (Some 0) (AppHandler 0) st).1 in
  ServeHTTP go_StatusText lcg_Intn 1 h (mkRequest 1 []) st
  = (Panicked ErrAbortHandler, emit [EvReport 7 "Reject Injector" StateStarted] st)
  ∧ ServeHTTP go_StatusText lcg_Intn 1
      (RejectInjector_Handler None (AppHandler 0) st).1 (mkRequest 1 []) st
    = (Panicked ErrAbortHandler, st).
Proof.
  intros st h. split.
  - destruct (RejectInjector_Handler_aborts go_StatusText lcg_Intn (Some 0) (AppHandler 0)
                (mkRequest 1 []) st st 0) as [Hsome _].
    destruct (Hsome 0 (mkRejectInjector (Some 7)) eq_refl eq_refl) as [Hrun _].
    exact Hrun.
  - destruct (RejectInjector_Handler_aborts go_StatusText lcg_Intn None (AppHandler 0)
                (mkRequest 1 []) st st 0) as [_ Hnil].
    exact (Hnil eq_refl).
Defined.

(** [NewErrorInjector(404)] with reporter 7: the response is 404 with the
    text "Not Found", the application handler is not called. *)
Lemma ErrorInjector_Handler_writes_witness :
  let '((i, _), st1) := NewErrorInjector go_StatusText 404 (@empty_world Z) in
  let st2 := (ErrorInjector_SetReporter i (Some 7) st1).2 in
  let '(h, st3) := ErrorInjector_Handler i (AppHandler 0) st2 in
  ServeHTTP go_StatusText lcg_Intn 1 h (mkRequest 1 []) st3
  = (Returned,
     emit [EvReport 7 "Error Injector" StateStarted; EvError "Not Found" 404] st3).
Proof.
  destruct (ErrorInjector_Handler_writes go_StatusText lcg_Intn 404 (AppHandler 0)
              (mkRequest 1 []) 0) as [Hnew _].
  destruct (Hnew (Some 0) empty_world
              (mkWorld [] [] [] [mkErrorInjector 404 "Not Found" None] [] [] []) eq_refl)
    as (a & Ha & _ & Hrun).
  injection Ha as <-.
  exact (Hrun (Some 7)
           (mkWorld [] [] [] [mkErrorInjector 404 "Not Found" (Some 7)] [] [] [])
           (mkWorld [] [] [] [mkErrorInjector 404 "Not Found" (Some 7)] [] [] [])
           eq_refl).
Defined.

(** A [SlowInjector] of 10ms with [time.Sleep] and reporter 7. *)
Lemma SlowInjector_Handler_delays_witness :
  let st := mkWorld [] ([] : list (@RandomInjector Z)) [] []
              [mkSlowInjector 10000000 (Some 7) (Some time_Sleep)] [] [] in
  let h := (SlowInjector_Handler (Some 0) (AppHandler 0) st).1 in
  ServeHTTP go_StatusText lcg_Intn 2 h (mkRequest 1 []) st
  = ServeHTTP go_StatusText lcg_Intn 1 (AppHandler 0)
      (updateRequestContextValue (mkRequest 1 []) ContextValueSlowInjector)
      (emit [EvReport 7 "Slow Injector" StateStarted;
             EvSleep time_Sleep 10000000;
             EvReport 7 "Slow Injector" StateFinished] st).
Proof.
  intros st h.
  destruct (SlowInjector_Handler_delays go_StatusText lcg_Intn 0
              (mkSlowInjector 10000000 (Some 7) (Some time_Sleep)) (AppHandler 0)
              (mkRequest 1 []) st st 1 eq_refl) as [Hsleep _].
  exact (Hsleep time_Sleep eq_refl).
Defined.

(** A [SlowInjector] whose [sleep] is nil. *)
Lemma nil_receiver_Handler_witness :
  let st := mkWorld [] ([] : list (@RandomInjector Z)) [] []
              [mkSlowInjector 10000000 (Some 7) None] [] [] in
  let '(h, st1) := SlowInjector_Handler (Some 0) (AppHandler 0) st in
  ServeHTTP go_StatusText lcg_Intn 2 h (mkRequest 1 []) st1
  = ServeHTTP go_StatusText lcg_Intn 1 (AppHandler 0)
      (updateRequestContextValue (mkRequest 1 []) ContextValueSkipped) st1.
Proof.
  intros st.
  destruct (nil_receiver_Handler go_StatusText lcg_Intn (AppHandler 0) (mkRequest 1 []) st 1)
    as (_ & _ & _ & _ & Hslow & _).
  exact (Hslow 0 (mkSlowInjector 10000000 (Some 7) None) eq_refl eq_refl).
Defined.

(** A [RandomInjector] over a slow and an error injector. *)
Lemma RandomInjector_Handler_delegates_witness :
  let c := mkRandomInjector [ISlow (Some 0); IError (Some 0)] None (Some (lcg_New 42)) in
  let st := mkWorld [] [c] []
              [mkErrorInjector 500 "Internal Server Error" None]
              [mkSlowInjector 10000000 None (Some time_Sleep)] [] [] in
  let h := (RandomInjector_Handler (Some 0) (AppHandler 0) st).1 in
  let r := mkRequest 1 [] in
  ∃ m, let '(k, g') := lcg_Intn (lcg_New 42) 2 in
    (0 ≤ k < 2)%Z
    ∧ [ISlow (Some 0); IError (Some 0)] !! Z.to_nat k = Some m
    ∧ ServeHTTP go_StatusText lcg_Intn 3 h r st =
        let st1 := emit [EvIntn 0 2 k] (with_randoms (alter (advance g') 0) st) in
        let '(h', st2) := Injector_Handler m (AppHandler 0) st1 in
        ServeHTTP go_StatusText lcg_Intn 2 h'
          (updateRequestContextValue r ContextValueRandomInjector) st2.
Proof.
  intros c st h r.
  destruct (RandomInjector_Handler_delegates go_StatusText lcg_Intn 0 c (AppHandler 0) r st st 2
              eq_refl) as [Hdraw _].
  apply (Hdraw lcg_Intn_in_range); [simpl; lia|reflexivity].
Defined.

(** A world with a chain and a random injector over one slow injector. *)
Lemma SetReporter_combinators_frame_witness :
  let st := mkWorld [mkChainInjector [ISlow (Some 0)] None]
              [mkRandomInjector [ISlow (Some 0)] None (Some (lcg_New 42))] [] []
              [mkSlowInjector 10000000 (Some 7) (Some time_Sleep)] [AppHandler 0] [] in
  let st' := with_chains (alter (set_chain_reporter (Some 9)) 0) st in
  ChainInjector_SetReporter (Some 0) (Some 9) st = (Returned, st')
  ∧ chains st' = <[0 := mkChainInjector [ISlow (Some 0)] (Some 9)]> (chains st)
  ∧ (randoms st', rejects st', errors st', slows st', vars st', trace st')
    = (randoms st, rejects st, errors st, slows st, vars st, trace st)
  ∧ ∀ fuel h r,
      ServeHTTP go_StatusText lcg_Intn fuel h r st'
      = prod_map id (with_chains (alter (set_chain_reporter (Some 9)) 0))
          (ServeHTTP go_StatusText lcg_Intn fuel h r st)
      ∧ (ServeHTTP go_StatusText lcg_Intn fuel h r st').1
        = (ServeHTTP go_StatusText lcg_Intn fuel h r st).1
      ∧ trace (ServeHTTP go_StatusText lcg_Intn fuel h r st').2
        = trace (ServeHTTP go_StatusText lcg_Intn fuel h r st).2.
Proof.
  intros st st'.
  destruct (SetReporter_combinators_frame go_StatusText lcg_Intn 0 (Some 9) st) as [Hchain _].
  exact (Hchain (mkChainInjector [ISlow (Some 0)] None) eq_refl).
Defined.

(** A random injector over an error and a slow injector, seeded with 42,
    serving three requests. *)
Lemma RandomInjector_selections_from_seed_witness :
  let st0 := mkWorld [] ([] : list (@RandomInjector Z)) []
               [mkErrorInjector 500 "Internal Server Error" None]
               [mkSlowInjector 10000000 None (Some time_Sleep)] [] [] in
  let injs := [IError (Some 0); ISlow (Some 0)] in
  let rs := [mkRequest 1 []; mkRequest 2 []; mkRequest 3 []] in
  let '((i, _), st1) := NewRandomInjector lcg_New 1 injs st0 in
  let st2 := (RandomInjector_SetRandSeed lcg_New i 42 st1).2 in
  let '(h, st3) := RandomInjector_Handler i (AppHandler 0) st2 in
  i = Some 0
  ∧ selections 0 (trace (serve_all go_StatusText lcg_Intn 4 h rs st3))
    = selections 0 (trace st0) ++ draws lcg_Intn (lcg_New 42) 2 3.
Proof.
  intros st0 injs rs.
  apply (RandomInjector_selections_from_seed go_StatusText lcg_New lcg_Intn 1 (Some 42%Z)
           injs (AppHandler 0) rs st0 3 I I I).
  discriminate.
Defined.

(** The scenario of the specification: a chain of [ErrorInjector(500)] and
    [SlowInjector(10ms)] around an application handler. The response is 500,
    the slow injector and the application handler are not reached; and so
    it is on the second request. *)
Example chain_error_then_slow :
  let '((e, _), st) := NewErrorInjector go_StatusText 500 (@empty_world Z) in
  let '((s, _), st) := NewSlowInjector 10000000 st in
  let '((chain, _), st) := NewChainInjector [IError e; ISlow s] st in
  let '(h, st) := ChainInjector_Handler chain (AppHandler 0) st in
  let '(o1, st1) := ServeHTTP go_StatusText lcg_Intn 4 h (mkRequest 1 []) st in
  let '(o2, st2) := ServeHTTP go_StatusText lcg_Intn 4 h (mkRequest 2 []) st1 in
  o1 = Returned
  ∧ trace st1 = [EvError "Internal Server Error" 500]
  ∧ o2 = Returned
  ∧ trace st2 = [EvError "Internal Server Error" 500; EvError "Internal Server Error" 500].
Proof. vm_compute. repeat split. Qed.

(** ** The further properties at concrete inputs *)

(** A chain of [ErrorInjector(500)] and a slow injector. *)
Lemma ChainInjector_Handler_first_invocation_witness :
  let c := mkChainInjector [IError (Some 0); ISlow (Some 0)] None in
  let st := mkWorld [c] ([] : list (@RandomInjector Z)) []
              [mkErrorInjector 500 "Internal Server Error" None]
              [mkSlowInjector 10000000 None (Some time_Sleep)] [] [] in
  let '(h, st1) := ChainInjector_Handler (Some 0) (AppHandler 0) st in
  ServeHTTP go_StatusText lcg_Intn 3 h (mkRequest 1 []) st1 =
    let '(hw, st2) := nested_wrap (chain_middlewares c) (AppHandler 0) st1 in
    ServeHTTP go_StatusText lcg_Intn 2 hw
      (updateRequestContextValue (mkRequest 1 []) ContextValueChainInjector)
      (with_vars (λ v, <[length (vars st) := hw]> v) st2).
Proof.
  intros c st.
  exact (ChainInjector_Handler_first_invocation go_StatusText lcg_Intn 0 c (AppHandler 0)
           (mkRequest 1 []) st 2 eq_refl).
Defined.

(** Three requests through a chain of one slow injector: six sleeps. *)
Lemma ChainInjector_Handler_delays_grow_witness :
  let st := mkWorld [mkChainInjector [ISlow (Some 0)] None] ([] : list (@RandomInjector Z))
              [] [] [mkSlowInjector 10000000 None (Some time_Sleep)] [AppHandler 0] [] in
  let rs := [mkRequest 1 []; mkRequest 2 []; mkRequest 3 []] in
  let st' := serve_all go_StatusText lcg_Intn 5 (ChainFunc (Some 0) 0) rs st in
  vars st' !! 0 = Some (Nat.iter 3 (SlowFunc (Some 0)) (AppHandler 0))
  ∧ 2 * sleep_count (trace st') = 2 * sleep_count (trace st) + 3 * (3 + 1).
Proof.
  intros st rs.
  apply (ChainInjector_Handler_delays_grow go_StatusText lcg_Intn 0
           (mkChainInjector [ISlow (Some 0)] None) 0
           (mkSlowInjector 10000000 None (Some time_Sleep)) time_Sleep 0 0 rs st 5);
    reflexivity.
Defined.

(** A chain of [ErrorInjector(500)] and a slow injector, whatever [next]
    holds. *)
Lemma ChainInjector_Handler_error_first_witness :
  let ce := mkErrorInjector 500 "Internal Server Error" (Some 7) in
  let st := mkWorld [mkChainInjector [IError (Some 0); ISlow (Some 0)] None]
              ([] : list (@RandomInjector Z)) [] [ce]
              [mkSlowInjector 10000000 None (Some time_Sleep)]
              [SlowFunc (Some 0) (AppHandler 0)] [] in
  let res := ServeHTTP go_StatusText lcg_Intn 2 (ChainFunc (Some 0) 0) (mkRequest 1 []) st in
  res.1 = Returned
  ∧ trace res.2
    = trace st ++ reportWithMessage (Some 7) "Error Injector" StateStarted
      ++ [EvError "Internal Server Error" 500].
Proof.
  intros ce st.
  apply (ChainInjector_Handler_error_first go_StatusText lcg_Intn 0
           (mkChainInjector [IError (Some 0); ISlow (Some 0)] None) 0 ce [ISlow (Some 0)] 0
           (SlowFunc (Some 0) (AppHandler 0)) (mkRequest 1 []) st 0);
    try reflexivity.
  discriminate.
Defined.

(** A chain of a reject injector and a slow injector. *)
Lemma ChainInjector_Handler_reject_first_witness :
  let st := mkWorld [mkChainInjector [IReject (Some 0); ISlow (Some 0)] None]
              ([] : list (@RandomInjector Z)) [mkRejectInjector (Some 7)] []
              [mkSlowInjector 10000000 None (Some time_Sleep)] [AppHandler 0] [] in
  let res := ServeHTTP go_StatusText lcg_Intn 2 (ChainFunc (Some 0) 0) (mkRequest 1 []) st in
  res.1 = Panicked ErrAbortHandler
  ∧ trace res.2 = trace st ++ reportWithMessage (Some 7) "Reject Injector" StateStarted.
Proof.
  intros st.
  apply (ChainInjector_Handler_reject_first go_StatusText lcg_Intn 0
           (mkChainInjector [IReject (Some 0); ISlow (Some 0)] None) 0
           (mkRejectInjector (Some 7)) [ISlow (Some 0)] 0 (AppHandler 0)
           (mkRequest 1 []) st 0);
    reflexivity.
Defined.

(** Two random injectors: requests through the second leave the first. *)
Lemma serve_all_leaves_other_generators_witness :
  let st := mkWorld []
              [mkRandomInjector [ISlow (Some 0)] None (Some (lcg_New 1));
               mkRandomInjector [ISlow (Some 0)] None (Some (lcg_New 2))] [] []
              [mkSlowInjector 10000000 None (Some time_Sleep)] [] [] in
  let h := RandomFunc (Some 1) (AppHandler 0) in
  let rs := [mkRequest 1 []; mkRequest 2 []] in
  randoms (serve_all go_StatusText lcg_Intn 4 h rs st) !! 0 = randoms st !! 0
  ∧ selections 0 (trace (serve_all go_StatusText lcg_Intn 4 h rs st))
    = selections 0 (trace st).
Proof.
  intros st h rs.
  exact (serve_all_leaves_other_generators go_StatusText lcg_New lcg_Intn 1 0 4 h rs st I I).
Defined.

(** A random injector that has drawn already, seeded again with 42. *)
Lemma SetRandSeed_restarts_witness :
  let c := mkRandomInjector [IError (Some 0); ISlow (Some 0)] None (Some 12345%Z) in
  let st := mkWorld [] [c] []
              [mkErrorInjector 500 "Internal Server Error" None]
              [mkSlowInjector 10000000 None (Some time_Sleep)] [] [EvIntn 0 2 1] in
  let rs := [mkRequest 1 []; mkRequest 2 []; mkRequest 3 []] in
  let res := RandomInjector_SetRandSeed lcg_New (Some 0) 42 st in
  res.1 = Returned
  ∧ selections 0
      (trace (serve_all go_StatusText lcg_Intn 4 (RandomFunc (Some 0) (AppHandler 0)) rs res.2))
    = selections 0 (trace st) ++ draws lcg_Intn (lcg_New 42) 2 3.
Proof.
  intros c st rs.
  apply (SetRandSeed_restarts go_StatusText lcg_New lcg_Intn 1 0 c 42 (AppHandler 0) rs st 3
           eq_refl); [simpl; lia|exact I|exact I].
Defined.

(** Reporters 7 and then 9 set on a slow injector. *)
Lemma SetReporter_last_wins_witness :
  let c := mkSlowInjector 10000000 None (Some time_Sleep) in
  let st := mkWorld [] ([] : list (@RandomInjector Z)) [] [] [c] [] [] in
  let st1 := (SlowInjector_SetReporter (Some 0) (Some 7) st).2 in
  let res := SlowInjector_SetReporter (Some 0) (Some 9) st1 in
  res = SlowInjector_SetReporter (Some 0) (Some 9) st
  ∧ res.1 = Returned
  ∧ ServeHTTP go_StatusText lcg_Intn 2 (SlowFunc (Some 0) (AppHandler 0)) (mkRequest 1 []) res.2
    = ServeHTTP go_StatusText lcg_Intn 1 (AppHandler 0)
        (updateRequestContextValue (mkRequest 1 []) ContextValueSlowInjector)
        (emit (reportWithMessage (Some 9) "Slow Injector" StateStarted
               ++ [EvSleep time_Sleep 10000000]
               ++ reportWithMessage (Some 9) "Slow Injector" StateFinished) res.2).
Proof.
  intros c st.
  destruct (SetReporter_last_wins go_StatusText lcg_Intn (Some 7) (Some 9) (AppHandler 0)
              (mkRequest 1 []) st 1) as (_ & _ & Hslow).
  exact (Hslow 0 c time_Sleep eq_refl eq_refl).
Defined.

(** A random injector over one slow injector. *)
Lemma RandomInjector_single_member_witness :
  let c := mkRandomInjector [ISlow (Some 0)] None (Some (lcg_New 42)) in
  let st := mkWorld [] [c] [] [] [mkSlowInjector 10000000 None (Some time_Sleep)] [] [] in
  let r := mkRequest 1 [] in
  ServeHTTP go_StatusText lcg_Intn 3 (RandomFunc (Some 0) (AppHandler 0)) r st =
    let st1 := emit [EvIntn 0 1 0]
                 (with_randoms (alter (advance (lcg_Intn (lcg_New 42) 1).2) 0) st) in
    let '(h', st2) := Injector_Handler (ISlow (Some 0)) (AppHandler 0) st1 in
    ServeHTTP go_StatusText lcg_Intn 2 h'
      (updateRequestContextValue r ContextValueRandomInjector) st2.
Proof.
  intros c st r.
  exact (RandomInjector_single_member go_StatusText lcg_Intn 0 c (ISlow (Some 0))
           (lcg_New 42) (AppHandler 0) r st 2 lcg_Intn_in_range eq_refl eq_refl eq_refl).
Defined.
